(** * furiosa.models.utils: artifact resolution and caching

    A shallow embedding of [src/furiosa/models/utils.py]: the string helper
    [removesuffix], the [ArtifactResolver] class (store discovery, descriptor
    parsing, the tiered [read]) and the module functions [resolve_file] and
    [load_artifacts].

    Python values are modelled as follows.
    - [str] is [string]; a slice [s[:k]] or [s[k:]] takes a [Z] index, a
      negative one counting from the end as in Python.
    - [bytes] is [list Byte.byte]; [len] is [Z.of_nat (length _)].
    - [pathlib.Path] is a record of an absolute flag and the list of path
      components (POSIX flavour, purely lexical, as pathlib is).
    - the file system, the environment and the network are explicit: a
      read-only [World] and a mutable [State] threaded through a state and
      exception monad; every I/O operation is logged in a trace.
    - exceptions are the constructors of [exn]. *)

From Stdlib Require Import String Ascii ZArith Lia.
From stdpp Require Import gmap strings list.

Local Open Scope Z_scope.

(** ** Python strings *)

Module PyStr.

(** The first [n] characters, all of them when [n] is too large. *)
Fixpoint take (n : nat) (s : string) : string :=
  match n, s with
  | S n', String c s' => String c (take n' s')
  | _, _ => EmptyString
  end.

(** What is left after the first [n] characters. *)
Fixpoint drop (n : nat) (s : string) : string :=
  match n, s with
  | S n', String _ s' => drop n' s'
  | _, _ => s
  end.

Definition len (s : string) : Z := Z.of_nat (String.length s).

(** A slice bound as Python normalises it: negative bounds count from the
    end, and everything is clamped to [0 .. len s]. *)
Definition bound (s : string) (k : Z) : nat :=
  Z.to_nat (if k <? 0 then Z.max 0 (len s + k) else Z.min k (len s)).

(** [s[:stop]] *)
Definition slice_to (s : string) (stop : Z) : string := take (bound s stop) s.

(** [s[start:]] *)
Definition slice_from (s : string) (start : Z) : string := drop (bound s start) s.

(** [base.endswith(suffix)]: the last [len suffix] characters of [base]
    are [suffix]. *)
Definition endswith (base suffix : string) : bool :=
  (String.length suffix <=? String.length base)%nat
  && String.eqb (drop (String.length base - String.length suffix) base) suffix.

(** [s.lower()] on ASCII letters. *)
Definition lower_ascii (c : ascii) : ascii :=
  let n := nat_of_ascii c in
  if ((65 <=? n) && (n <=? 90))%nat then ascii_of_nat (n + 32) else c.

Fixpoint lower (s : string) : string :=
  match s with
  | EmptyString => EmptyString
  | String c s' => String (lower_ascii c) (lower s')
  end.

(** [s.split(sep)] for a one-character separator. *)
Fixpoint split (sep : ascii) (s : string) : list string :=
  match s with
  | EmptyString => [EmptyString]
  | String c s' =>
      if Ascii.eqb c sep then EmptyString :: split sep s'
      else match split sep s' with
           | [] => [String c EmptyString]
           | w :: ws => String c w :: ws
           end
  end.

(** [sep.join(ws)] *)
Fixpoint join (sep : string) (ws : list string) : string :=
  match ws with
  | [] => EmptyString
  | [w] => w
  | w :: ws' => w +:+ sep +:+ join sep ws'
  end.

(** [s.rfind(".")]: the index of the last dot, [-1] when there is none. *)
Fixpoint rfind_dot (s : string) : Z :=
  match s with
  | EmptyString => -1
  | String c s' =>
      let r := rfind_dot s' in
      if 0 <=? r then r + 1
      else if Ascii.eqb c "."%char then 0 else -1
  end.

End PyStr.

(** ** [removesuffix] (utils.py, lines 75-79) *)

Definition removesuffix (base suffix : string) : string :=
  if PyStr.endswith base suffix
  then PyStr.slice_to base (PyStr.len base - PyStr.len suffix)
  else base.

(** ** [pathlib.Path]

    A path is lexical data: whether it is anchored at the root, and its
    components. Parsing drops empty and ["."] components and keeps [".."],
    as pathlib does. (POSIX gives a path that starts with exactly two
    slashes a root of its own; that root is not modelled.) *)

Record Path := mkPath { is_absolute : bool; components : list string }.

#[global] Instance Path_eq_dec : EqDecision Path.
Proof. solve_decision. Defined.

#[global] Instance Path_countable : Countable Path.
Proof.
  refine (inj_countable' (fun p => (is_absolute p, components p))
                         (fun '(a, c) => mkPath a c) _).
  intros []; reflexivity.
Defined.

Module Pathlib.

Definition keep_component (c : string) : bool :=
  negb (String.eqb c "") && negb (String.eqb c ".").

(** [Path(s)] *)
Definition of_str (s : string) : Path :=
  {| is_absolute := match s with String "/" _ => true | _ => false end;
     components := List.filter keep_component (PyStr.split "/" s) |}.

(** [str(p)] *)
Definition to_str (p : Path) : string :=
  match is_absolute p, components p with
  | true, cs => "/" +:+ PyStr.join "/" cs
  | false, [] => "."
  | false, cs => PyStr.join "/" cs
  end.

(** [p / q] for two paths: an absolute right operand replaces the left. *)
Definition join (p q : Path) : Path :=
  if is_absolute q then q
  else {| is_absolute := is_absolute p; components := components p ++ components q |}.

(** [p / s] for a string operand. *)
Definition truediv (p : Path) (s : string) : Path := join p (of_str s).

(** [p.name]: the last component, empty when there is none. *)
Definition name (p : Path) : string := List.last (components p) "".

(** [p.parent]: the root and the empty relative path are their own
    parents. *)
Definition parent (p : Path) : Path :=
  {| is_absolute := is_absolute p; components := removelast (components p) |}.

(** [p.suffix]: from the last dot of the name on, unless that dot starts
    or ends the name. *)
Definition suffix (p : Path) : string :=
  let n := name p in
  let i := PyStr.rfind_dot n in
  if (0 <? i) && (i <? PyStr.len n - 1) then PyStr.slice_from n i else "".

(** [p.with_suffix('')]: the name loses its suffix. (pathlib raises
    [ValueError] on a path without a name; that case returns the path
    unchanged here and is never reached from [resolve_file], whose glob
    results all have a name.) *)
Definition with_suffix_empty (p : Path) : Path :=
  match components p with
  | [] => p
  | _ =>
      let n := name p in
      let stem := PyStr.slice_to n (PyStr.len n - PyStr.len (suffix p)) in
      {| is_absolute := is_absolute p;
         components := removelast (components p) ++ [stem] |}
  end.

End Pathlib.

Notation "p // s" := (Pathlib.truediv p s) (at level 40, left associativity).

(** ** Exceptions

    The built-in exceptions the modelled code can raise, the transport
    error of aiohttp, the errors of the YAML load, and the three classes of
    the package's [errors] module that utils.py names. *)

Inductive exn : Type :=
  | TypeError
  | AttributeError
  | AssertionError
  | RuntimeError            (* a [StopIteration] leaving a coroutine, PEP 479 *)
  | FileNotFoundError
  | IsADirectoryError
  | NotADirectoryError
  | FileExistsError
  | DescriptorError         (* [yaml.YAMLError], [KeyError], [IndexError] of the load *)
  | ClientError             (* aiohttp transport failure *)
  | RecursionError          (* the interpreter's limit on nested calls *)
  | PermissionError
  | OSError                 (* any other error of a system call *)
  | NotFoundInDVCRemote (uri : Path) (md5 : string)
  | VersionInfoNotFound
  | ArtifactNotFound (msg : string).

(** The classes defined by the package's own [errors] module, as opposed to
    exceptions of Python or of a library. *)
Definition is_package_error (e : exn) : bool :=
  match e with
  | NotFoundInDVCRemote _ _ | VersionInfoNotFound | ArtifactNotFound _ => true
  | _ => false
  end.

Inductive Result (A : Type) : Type :=
  | Return (a : A)
  | Raise (e : exn).
Arguments Return {A} a.
Arguments Raise {A} e.

(** ** The world: file system, environment, network *)

Abbreviation bytes := (list Byte.byte).

Inductive node : Type :=
  | File (data : bytes)
  | Dir.

(** [nodes] is what [stat] and [open] see at a path (links followed);
    [symlinks] is what [is_symlink] and [readlink] see. *)
Record FileSystem := mkFS {
  nodes : gmap Path node;
  symlinks : gmap Path Path }.

Inductive Event : Type :=
  | Stat (p : Path)              (* [exists], [is_dir], [is_symlink] *)
  | ScanDir (p : Path)           (* [glob] *)
  | OpenRead (p : Path)          (* [open(p, "rb")] and [read] *)
  | ReadDescriptor (p : Path)    (* [open(f"{p}.dvc").read()] *)
  | HttpGet (url : string)
  | Mkdir (p : Path)
  | OpenWrite (p : Path).

Record State := mkState { fs : FileSystem; trace : list Event }.

Inductive HttpOutcome : Type :=
  | Response (status : Z) (body : bytes)
  | TransportFailure.

Record CompilerVersion := mkCompilerVersion { version : string; revision : string }.

(** What does not change during a resolution. [libnux] is what
    [find_native_libs("nux")] finds: the decoded [version()] and
    [git_short_hash()] of the library, or nothing. [descriptor_outs0]
    stands for [yaml.safe_load(text)["outs"][0]] followed by the lookups of
    ["md5"] and ["size"]. [recursion_frames] is the number of nested
    activations of [find_dvc_cache_directory] the interpreter still admits
    where the constructor calls it (the recursion limit less the depth of
    the stack there). [is_dir_error] is the error, if any, with which the
    [stat] behind [is_dir] fails at a path and which pathlib does not take
    for "not a directory": a permission error, a name that is too long. *)
Record World := mkWorld {
  libnux : option (string * string);
  recursion_frames : nat;
  is_dir_error : Path -> option exn;
  DATA_DIRECTORY_BASE : Path;
  CACHE_DIRECTORY_BASE : Path;
  DVC_PUBLIC_HTTP_ENDPOINT : string;
  environ_DVC_REPO : option string;
  cwd : Path;
  remote : string -> HttpOutcome;
  descriptor_outs0 : bytes -> Result (string * Z) }.

Definition EXT_CALIB_YAML : string := "calib_range.yaml".
Definition EXT_ENF : string := "enf".
Definition EXT_ONNX : string := "onnx".
Definition GENERATED_EXTENSIONS : list string := [EXT_ENF].

(** ** The monad of the modelled code: state and exceptions *)

Definition M (A : Type) : Type := State -> Result A * State.

#[global] Instance M_ret : MRet M := fun A a st => (Return a, st).

#[global] Instance M_bind : MBind M := fun A B f m st =>
  match m st with
  | (Return a, st') => f a st'
  | (Raise e, st') => (Raise e, st')
  end.

Definition raise {A : Type} (e : exn) : M A := fun st => (Raise e, st).

(** [try: body / except Exception: handler] *)
Definition try_except {A : Type} (body : M A) (handler : exn -> M A) : M A :=
  fun st =>
    match body st with
    | (Return a, st') => (Return a, st')
    | (Raise e, st') => handler e st'
    end.

(** [assert b] *)
Definition py_assert (b : bool) : M unit :=
  if b then mret tt else raise AssertionError.

(** The state after one more logged event. *)
Definition logged (e : Event) (st : State) : State :=
  {| fs := fs st; trace := trace st ++ [e] |}.

Definition log (e : Event) : M unit := fun st => (Return tt, logged e st).

Definition get_fs : M FileSystem := fun st => (Return (fs st), st).

Definition put_fs (f : FileSystem) : M unit :=
  fun st => (Return tt, {| fs := f; trace := trace st |}).

(** Python's [None] test on a value that is either [None] or a [str]. *)
Inductive pyval : Type :=
  | PyNone
  | PyStr (s : string).

Definition is_None (v : pyval) : bool :=
  match v with PyNone => true | PyStr _ => false end.

(** [f"{o}"] for an optional string: [None] prints as ["None"]. *)
Definition format_opt (o : option string) : string :=
  match o with Some s => s | None => "None" end.

(** [fnmatch] for the patterns [glob] is given: [*] matches any run of
    characters, [?] any one character, everything else itself. (Bracket
    classes are not modelled; the pattern built by [resolve_file] has one
    only when the extension itself contains a bracket.) *)
Fixpoint fnmatch (pat : string) : string -> bool :=
  match pat with
  | EmptyString => fun s => match s with EmptyString => true | _ => false end
  | String c pat' =>
      if Ascii.eqb c "*" then
        fix star (s : string) : bool :=
          fnmatch pat' s
          || match s with EmptyString => false | String _ s' => star s' end
      else if Ascii.eqb c "?" then
        fun s => match s with String _ s' => fnmatch pat' s' | _ => false end
      else
        fun s => match s with
                 | String d s' => Ascii.eqb c d && fnmatch pat' s'
                 | _ => false
                 end
  end.

(** ** Coroutines and the event loop

    A coroutine run from a state either finishes, with its result and the
    state it leaves, or stops at a place where it yields to the event loop,
    with the state it leaves and what it does when the loop resumes it,
    from the state the other tasks have made meanwhile. *)

Inductive Run (A : Type) : Type :=
  | Finished (r : Result A) (st : State)
  | Suspended (st : State) (resume : State -> Run A).
Arguments Finished {A} r st.
Arguments Suspended {A} st resume.

Definition Co (A : Type) : Type := State -> Run A.

#[global] Instance Co_ret : MRet Co := fun A a st => Finished (Return a) st.

Fixpoint bind_run {A B : Type} (f : A -> Co B) (x : Run A) : Run B :=
  match x with
  | Finished (Return a) st => f a st
  | Finished (Raise e) st => Finished (Raise e) st
  | Suspended st resume => Suspended st (fun st' => bind_run f (resume st'))
  end.

#[global] Instance Co_bind : MBind Co := fun A B f c st => bind_run f (c st).

(** Code that runs without yielding. *)
Definition atomic {A : Type} (m : M A) : Co A :=
  fun st => let '(r, st') := m st in Finished r st'.

(** A place where the coroutine may yield and nothing else happens. *)
Definition suspend : Co unit :=
  fun st => Suspended st (fun st' => Finished (Return tt) st').

(** [await] of an operation that is carried out elsewhere (the thread pool
    of aiofiles, the network): the coroutine yields, the operation takes
    place at some later time, and the coroutine is resumed with its result
    at some time after that. *)
Definition await_io {A : Type} (m : M A) : Co A :=
  fun st =>
    Suspended st (fun st1 =>
      let '(r, st2) := m st1 in
      Suspended st2 (fun st3 => Finished r st3)).

Fixpoint try_run {A : Type} (handler : exn -> Co A) (x : Run A) : Run A :=
  match x with
  | Finished (Return a) st => Finished (Return a) st
  | Finished (Raise e) st => handler e st
  | Suspended st resume => Suspended st (fun st' => try_run handler (resume st'))
  end.

(** [try: body / except Exception: handler] around code that may yield. *)
Definition try_except_coroutine {A : Type} (body : Co A) (handler : exn -> Co A) : Co A :=
  fun st => try_run handler (body st).

Fixpoint exit_run {A : Type} (x : Run A) : Run A :=
  match x with
  | Finished r st => Suspended st (fun st' => Finished r st')
  | Suspended st resume => Suspended st (fun st' => exit_run (resume st'))
  end.

(** [async with ...: body]: the exit of the block is awaited, whether the
    body returned or raised. *)
Definition async_with {A : Type} (body : Co A) : Co A :=
  fun st => exit_run (body st).

(** A coroutine awaited on its own, with nothing else running: every
    resumption finds the state as the coroutine left it. *)
Fixpoint run_alone {A : Type} (x : Run A) : Result A * State :=
  match x with
  | Finished r st => (r, st)
  | Suspended st resume => run_alone (resume st)
  end.

(** A task of the event loop. *)
Inductive Task (A : Type) : Type :=
  | Pending (resume : State -> Run A)
  | Completed (r : Result A).
Arguments Pending {A} resume.
Arguments Completed {A} r.

(** The loop runs task [i] up to its next yield or to its end; the
    completions are logged in the order of time. A step of a task that
    does not exist or has completed does nothing. *)
Definition step_task {A : Type} (i : nat) (tasks : list (Task A)) (st : State)
    (done : list (nat * Result A)) : list (Task A) * State * list (nat * Result A) :=
  match tasks !! i with
  | Some (Pending resume) =>
      match resume st with
      | Finished r st' => (<[i := Completed r]> tasks, st', done ++ [(i, r)])
      | Suspended st' resume' => (<[i := Pending resume']> tasks, st', done)
      end
  | _ => (tasks, st, done)
  end.

(** A schedule is the order in which the loop runs its tasks: asyncio runs
    the first step of each task in the order of creation and resumes a
    task after that when what it awaits is there, in an order that depends
    on the outside. Every order is admitted here. *)
Fixpoint event_loop {A : Type} (schedule : list nat) (tasks : list (Task A))
    (st : State) (done : list (nat * Result A))
  : list (Task A) * State * list (nat * Result A) :=
  match schedule with
  | [] => (tasks, st, done)
  | i :: schedule' =>
      let '(tasks', st', done') := step_task i tasks st done in
      event_loop schedule' tasks' st' done'
  end.

(** The exception of the task that failed first. *)
Fixpoint first_exception {A : Type} (done : list (nat * Result A)) : option exn :=
  match done with
  | [] => None
  | (_, Raise e) :: _ => Some e
  | (_, Return _) :: done' => first_exception done'
  end.

(** The values of the tasks, in the order of the tasks, when all of them
    have returned. *)
Fixpoint values_of {A : Type} (tasks : list (Task A)) : option (list A) :=
  match tasks with
  | [] => Some []
  | Completed (Return a) :: tasks' =>
      match values_of tasks' with
      | Some l => Some (a :: l)
      | None => None
      end
  | _ => None
  end.

(** The result of the future of [gather], without [return_exceptions]: the
    exception of the first task to fail, as soon as one has failed; the
    values in the order of the arguments, once every task has returned;
    nothing yet otherwise. A task that fails after another is not
    cancelled and its exception is dropped. *)
Definition gather_result {A : Type} (tasks : list (Task A))
    (done : list (nat * Result A)) : option (Result (list A)) :=
  match first_exception done with
  | Some e => Some (Raise e)
  | None =>
      match values_of tasks with
      | Some l => Some (Return l)
      | None => None
      end
  end.

(** [await asyncio.gather] on the coroutines [cs], under a schedule. *)
Definition gather {A : Type} (cs : list (Co A)) (schedule : list nat) (st : State)
  : option (Result (list A)) :=
  let '(tasks, _, done) := event_loop schedule (List.map Pending cs) st [] in
  gather_result tasks done.

Section Resolver.

Variable w : World.

(** *** File system operations *)

(** The key of a path in the file system: relative paths are taken from
    the working directory. *)
Definition key (p : Path) : Path :=
  if is_absolute p then p else Pathlib.join (cwd w) p.

(** The root (and the working directory itself) is always a directory. *)
Definition node_at (f : FileSystem) (p : Path) : option node :=
  match components (key p) with
  | [] => Some Dir
  | _ => nodes f !! key p
  end.

Definition stat (p : Path) : M (option node) :=
  log (Stat p);; f ← get_fs; mret (node_at f p).

(** [p.exists()] *)
Definition exists_ (p : Path) : M bool :=
  n ← stat p; mret (match n with Some _ => true | None => false end).

(** [p.is_dir()]: pathlib answers [False] when the path is missing and
    lets the other errors of [stat] through. *)
Definition is_dir (p : Path) : M bool :=
  match is_dir_error w p with
  | Some e => log (Stat p);; raise e
  | None => n ← stat p; mret (match n with Some Dir => true | _ => false end)
  end.

(** [p.is_symlink()] *)
Definition is_symlink (p : Path) : M bool :=
  log (Stat p);; f ← get_fs;
  mret (match symlinks f !! key p with Some _ => true | None => false end).

(** [p.readlink()] *)
Definition readlink (p : Path) : M Path :=
  f ← get_fs;
  match symlinks f !! key p with
  | Some target => mret target
  | None => raise FileNotFoundError
  end.

(** [async with aiofiles.open(p, mode="rb") as f: await f.read()] *)
Definition open_rb (p : Path) : M bytes :=
  log (OpenRead p);; f ← get_fs;
  match node_at f p with
  | Some (File data) => mret data
  | Some Dir => raise IsADirectoryError
  | None => raise FileNotFoundError
  end.

(** The non-empty prefixes of a component list, shortest first. *)
Fixpoint prefixes (cs : list string) : list (list string) :=
  match cs with
  | [] => []
  | c :: cs' => [c] :: List.map (cons c) (prefixes cs')
  end.

(** Create each missing directory of the chain; a regular file in the way
    is an error. *)
Fixpoint mkdir_chain (target : Path) (qs : list Path) (f : FileSystem)
  : Result FileSystem :=
  match qs with
  | [] => Return f
  | q :: qs' =>
      match nodes f !! q with
      | Some Dir => mkdir_chain target qs' f
      | Some (File _) =>
          Raise (if decide (q = target) then FileExistsError else NotADirectoryError)
      | None =>
          mkdir_chain target qs'
            {| nodes := <[q := Dir]> (nodes f); symlinks := symlinks f |}
      end
  end.

(** [p.mkdir(parents=True, exist_ok=True)] *)
Definition mkdir_parents (p : Path) : M unit :=
  log (Mkdir p);; f ← get_fs;
  match mkdir_chain (key p)
          (List.map (mkPath (is_absolute (key p))) (prefixes (components (key p)))) f with
  | Return f' => put_fs f'
  | Raise e => raise e
  end.

(** [async with aiofiles.open(p, mode="wb") as f: await f.write(data)] *)
Definition open_wb (p : Path) (data : bytes) : M unit :=
  log (OpenWrite p);; f ← get_fs;
  match node_at f p with
  | Some Dir => raise IsADirectoryError
  | _ =>
      match node_at f (Pathlib.parent (key p)) with
      | Some Dir =>
          put_fs {| nodes := <[key p := File data]> (nodes f); symlinks := symlinks f |}
      | Some (File _) => raise NotADirectoryError
      | None => raise FileNotFoundError
      end
  end.

(** [dir.glob(pattern)] for a one-component pattern: the entries of [dir]
    whose name matches. They come in the order of the keys of the map; the
    code has them in the order of [os.scandir], which is arbitrary. *)
Definition glob (dir : Path) (pattern : string) : M (list Path) :=
  log (ScanDir dir);; f ← get_fs;
  mret (List.map (fun q => Pathlib.join dir (mkPath false [Pathlib.name q]))
          (List.filter
             (fun q => bool_decide (Pathlib.parent q = key dir)
                       && negb (bool_decide (components q = []))
                       && fnmatch pattern (Pathlib.name q))
             (List.map fst (map_to_list (nodes f))))).

(** [session.get(url)], the status and [resp.read()] *)
Definition http_get (url : string) : M (Z * bytes) :=
  log (HttpGet url);;
  match remote w url with
  | Response status body => mret (status, body)
  | TransportFailure => raise ClientError
  end.

(** *** [get_nux_version], [version_info] (utils.py, lines 56-72) *)

Definition get_nux_version : option CompilerVersion :=
  match libnux w with
  | None => None
  | Some (v, r) => Some {| version := v; revision := r |}
  end.

Definition version_info : option string :=
  match get_nux_version with
  | None => None
  | Some vi => Some (version vi +:+ "_" +:+ revision vi)
  end.

(** [base / o] where [o] may be [None]: pathlib refuses a non-path
    operand, and the operator raises [TypeError]. *)
Definition truediv_opt (base : Path) (o : option string) : M Path :=
  match o with
  | Some s => mret (base // s)
  | None => raise TypeError
  end.

(** *** [ArtifactResolver] (utils.py, lines 82-153) *)

Record ArtifactResolver := mkResolver { uri : Path; dvc_cache_path : option Path }.

(** [find_dvc_cache_directory]: the recursion on [path.parent], one
    activation per directory visited. [frames] is the number of nested
    activations the interpreter still admits: with none left the call
    raises [RecursionError]. The argument is a path ([__init__] passes
    [Path.cwd()], never [None]). *)
Fixpoint find_dvc_cache_directory (frames : nat) (path : Path) : M (option Path) :=
  match frames with
  | O => raise RecursionError
  | S frames' =>
      if decide (path = Pathlib.parent path) then mret None
      else
        marker ← is_dir (path // ".dvc");
        if (marker : bool) then mret (Some (path // ".dvc" // "cache"))
        else find_dvc_cache_directory frames' (Pathlib.parent path)
  end.

(** [__init__]: the default of [os.environ.get] is evaluated first; a
    value taken from the environment is a [str], which has no
    [is_symlink]. *)
Definition ArtifactResolver_init (uri0 : Path) : M ArtifactResolver :=
  found ← find_dvc_cache_directory (recursion_frames w) (cwd w);
  match environ_DVC_REPO w with
  | Some _ => raise AttributeError
  | None =>
      match found with
      | None => mret {| uri := uri0; dvc_cache_path := None |}
      | Some p =>
          l ← is_symlink p;
          if (l : bool)
          then (t ← readlink p; mret {| uri := uri0; dvc_cache_path := Some t |})
          else mret {| uri := uri0; dvc_cache_path := Some p |}
      end
  end.

(** [md5sum[:2], md5sum[2:]] *)
Definition split_md5 (md5sum : string) : string * string :=
  (PyStr.slice_to md5sum 2, PyStr.slice_from md5sum 2).

(** [f"{file_path}.dvc"], as [open] resolves it. *)
Definition dvc_file_of (file_path : Path) : Path :=
  Pathlib.of_str (Pathlib.to_str file_path +:+ ".dvc").

(** [parse_dvc_file] *)
Definition parse_dvc_file (file_path : Path) : M (string * string * Z) :=
  let sidecar := dvc_file_of file_path in
  log (ReadDescriptor sidecar);; f ← get_fs;
  match node_at f sidecar with
  | Some (File text) =>
      match descriptor_outs0 w text with
      | Return (md5sum, size) => mret (split_md5 md5sum, size)
      | Raise e => raise e
      end
  | Some Dir => raise IsADirectoryError
  | None => raise FileNotFoundError
  end.

(** [get_url] *)
Definition get_url (directory filename : string) : string :=
  DVC_PUBLIC_HTTP_ENDPOINT w +:+ "/" +:+ directory +:+ "/" +:+ filename.

(** [len(data)] *)
Definition len (data : bytes) : Z := Z.of_nat (length data).

(** Lines 128-137: the content-addressed store. [None] stands for falling
    out of the [if] without returning. *)
Definition read_dvc_cache (r : ArtifactResolver) (directory filename : string)
    (size : Z) : M (option bytes) :=
  match dvc_cache_path r with
  | Some root =>
      let cached := root // directory // filename in
      hit ← exists_ cached;
      if (hit : bool) then
        (data ← open_rb cached;
         py_assert (len data =? size);;
         mret (Some data))
      else mret None
  | None => mret None
  end.

(** Lines 140-153: the remote fetch and the write to the cache. *)
Definition fetch_remote (r : ArtifactResolver) (directory filename : string)
    (size : Z) : M bytes :=
  let url := get_url directory filename in
  '(status, data) ← http_get url;
  if negb (status =? 200) then
    raise (NotFoundInDVCRemote (uri r) (directory +:+ filename))
  else
    (py_assert (len data =? size);;
     base ← truediv_opt (CACHE_DIRECTORY_BASE w) version_info;
     let caching_path := base // Pathlib.name (uri r) in
     mkdir_parents (Pathlib.parent caching_path);;
     open_wb caching_path data;;
     mret data).

(** The path [CACHE_DIRECTORY_BASE / version_info() / self.uri.name] of
    lines 114 and 148, for a version tag [v]. *)
Definition cache_path_for (v : string) (r : ArtifactResolver) : Path :=
  CACHE_DIRECTORY_BASE w // v // Pathlib.name (uri r).

(** [read] *)
Definition read (r : ArtifactResolver) : M bytes :=
  base ← truediv_opt (CACHE_DIRECTORY_BASE w) version_info;
  let local_cache_path := base // Pathlib.name (uri r) in
  cached ← exists_ local_cache_path;
  if (cached : bool) then open_rb local_cache_path
  else
    (literal ← exists_ (uri r);
     if (literal : bool) then open_rb (uri r)
     else
       ('(directory, filename, size) ← parse_dvc_file (uri r);
        found ← read_dvc_cache r directory filename size;
        match found with
        | Some data => mret data
        | None => fetch_remote r directory filename size
        end)).

(** *** [resolve_file] (utils.py, lines 156-174) *)

Definition DEFAULT_GENERATED_SUFFIX : string := "_warboy_2pe".

(** The message of the exception raised by the handler. *)
Definition not_found_message (src_name : string) (full_path : Path)
    (extension : string) : string :=
  src_name +:+ ":" +:+ Pathlib.to_str full_path +:+ "." +:+ extension.

(** Lines 160-169: the path of the artifact. The f-string of line 161 is a
    [str] whatever [version_info()] returns, and line 162 tests that
    [str] against [None]. [next] on an exhausted glob raises
    [StopIteration], which leaves the coroutine as [RuntimeError]. *)
Definition locate (src_name extension generated_suffix : string) : M Path :=
  if bool_decide (PyStr.lower extension ∈ GENERATED_EXTENSIONS) then
    let generated_path_base := "generated/" +:+ format_opt version_info in
    if is_None (PyStr generated_path_base) then raise VersionInfoNotFound
    else
      let file_name := src_name +:+ generated_suffix +:+ "." +:+ extension in
      mret (DATA_DIRECTORY_BASE w // (generated_path_base +:+ "/" +:+ file_name))
  else
    found ← glob (DATA_DIRECTORY_BASE w // src_name) ("*." +:+ extension +:+ ".dvc");
    match found with
    | [] => raise RuntimeError
    | full_path :: _ => mret (Pathlib.with_suffix_empty full_path)
    end.

Definition resolve_file (src_name extension generated_suffix : string) : M bytes :=
  full_path ← locate src_name extension generated_suffix;
  try_except
    (r ← ArtifactResolver_init full_path; read r)
    (fun _ => raise (ArtifactNotFound (not_found_message src_name full_path extension))).

(** *** The coroutines [read] and [resolve_file]

    The same bodies once more, this time with the places marked where the
    coroutine may yield to the event loop: each [await] of an operation of
    aiofiles or aiohttp, and each exit of an [async with] block. Between
    two such places the code runs without interruption. The synchronous
    calls ([exists], [mkdir], [glob], [open(...).read()] of the descriptor,
    the constructor) do not yield. *)

Definition read_dvc_cache_coroutine (r : ArtifactResolver) (directory filename : string)
    (size : Z) : Co (option bytes) :=
  match dvc_cache_path r with
  | Some root =>
      let cached := root // directory // filename in
      hit ← atomic (exists_ cached);
      if (hit : bool) then
        (data ← await_io (open_rb cached);
         atomic (py_assert (len data =? size));;
         mret (Some data))
      else mret None
  | None => mret None
  end.

Definition fetch_remote_coroutine (r : ArtifactResolver) (directory filename : string)
    (size : Z) : Co bytes :=
  let url := get_url directory filename in
  async_with
    ('(status, data) ← await_io (http_get url);
     if negb (status =? 200) then
       atomic (raise (NotFoundInDVCRemote (uri r) (directory +:+ filename)))
     else
       (suspend;;
        atomic (py_assert (len data =? size));;
        base ← atomic (truediv_opt (CACHE_DIRECTORY_BASE w) version_info);
        let caching_path := base // Pathlib.name (uri r) in
        atomic (mkdir_parents (Pathlib.parent caching_path));;
        await_io (open_wb caching_path data);;
        mret data)).

Definition read_coroutine (r : ArtifactResolver) : Co bytes :=
  base ← atomic (truediv_opt (CACHE_DIRECTORY_BASE w) version_info);
  let local_cache_path := base // Pathlib.name (uri r) in
  cached ← atomic (exists_ local_cache_path);
  if (cached : bool) then await_io (open_rb local_cache_path)
  else
    (literal ← atomic (exists_ (uri r));
     if (literal : bool) then await_io (open_rb (uri r))
     else
       ('(directory, filename, size) ← atomic (parse_dvc_file (uri r));
        found ← read_dvc_cache_coroutine r directory filename size;
        match found with
        | Some data => mret data
        | None => fetch_remote_coroutine r directory filename size
        end)).

Definition resolve_file_coroutine (src_name extension generated_suffix : string)
  : Co bytes :=
  full_path ← atomic (locate src_name extension generated_suffix);
  try_except_coroutine
    (r ← atomic (ArtifactResolver_init full_path); read_coroutine r)
    (fun _ =>
       atomic (raise (ArtifactNotFound (not_found_message src_name full_path extension)))).

(** *** [load_artifacts] (utils.py, lines 177-180) *)

(** [{k: v for k, v in pairs}]: a later pair overwrites an earlier one. *)
Definition dict_of (pairs : list (string * bytes)) : gmap string bytes :=
  foldl (fun m kv => <[kv.1 := kv.2]> m) ∅ pairs.

(** The coroutines [load_artifacts] hands to [asyncio.gather]. *)
Definition resolvers (name : string) : list (Co bytes) :=
  List.map (fun ext => resolve_file_coroutine name ext DEFAULT_GENERATED_SUFFIX)
    [EXT_ONNX; EXT_CALIB_YAML; EXT_ENF].

(** [load_artifacts] under a schedule of the event loop. [None]: the loop
    was stopped before [gather] had its result. *)
Definition load_artifacts (name : string) (schedule : list nat) (st : State)
  : option (Result (gmap string bytes)) :=
  let exts := [EXT_ONNX; EXT_CALIB_YAML; EXT_ENF] in
  match gather (resolvers name) schedule st with
  | Some (Return results) => Some (Return (dict_of (zip exts results)))
  | Some (Raise e) => Some (Raise e)
  | None => None
  end.

End Resolver.

(** ** Vocabulary of the statements *)

(** The [k]-th ancestor of a path: [path.parent] taken [k] times. *)
Definition ancestor (k : nat) (p : Path) : Path := Nat.iter k Pathlib.parent p.

(** Whether [p / ".dvc"] is a directory. *)
Definition has_marker (w : World) (f : FileSystem) (p : Path) : bool :=
  match node_at w f (p // ".dvc") with Some Dir => true | _ => false end.

(** No remote request among the events. *)
Definition no_fetch (evs : list Event) : Prop :=
  forall url : string, ~ (HttpGet url ∈ evs).

(** No write to the file system among the events. *)
Definition no_write (evs : list Event) : Prop :=
  forall p : Path, ~ (Mkdir p ∈ evs) /\ ~ (OpenWrite p ∈ evs).

(** From [st] to [st'] the file system is unchanged and the events added
    are neither remote requests nor writes. *)
Definition quiet (st st' : State) : Prop :=
  fs st' = fs st
  /\ exists evs : list Event, trace st' = trace st ++ evs /\ no_fetch evs /\ no_write evs.

(** Events that only look at the file system. *)
Definition is_probe (e : Event) : bool :=
  match e with
  | Stat _ | ScanDir _ | OpenRead _ | ReadDescriptor _ => true
  | _ => false
  end.

(** The log of the event loop holds exactly the completions of the tasks. *)
Definition logged_completions {A : Type} (tasks : list (Task A))
    (done : list (nat * Result A)) : Prop :=
  forall (i : nat) (r : Result A),
    tasks !! i = Some (Completed r) <-> (i, r) ∈ done.

(** ** A concrete world

    One package data directory with the descriptor of [m.onnx], a version
    tag, and a remote that serves three bytes for the hash [ab12cd34]. The
    descriptor loader of this world reads a one-byte text: [0] declares the
    hash with size 3, [1] the same hash with size 4. *)

Module Sample.

Import Byte.

Definition endpoint : string :=
  "https://furiosa-public-artifacts.s3-accelerate.amazonaws.com/furiosa-artifacts".

Definition outs0 (text : bytes) : Result (string * Z) :=
  match text with
  | [x00] => Return ("ab12cd34", 3)
  | [x01] => Return ("ab12cd34", 4)
  | _ => Raise DescriptorError
  end.

Definition payload : bytes := [x61; x62; x63].
Definition stale : bytes := [x7a].

Definition world (nux : option (string * string)) : World :=
  {| libnux := nux;
     recursion_frames := 1000;
     is_dir_error := fun _ => None;
     DATA_DIRECTORY_BASE := Pathlib.of_str "/pkg/furiosa/models/data";
     CACHE_DIRECTORY_BASE := Pathlib.of_str "/home/u/.cache/furiosa/models";
     DVC_PUBLIC_HTTP_ENDPOINT := endpoint;
     environ_DVC_REPO := None;
     cwd := Pathlib.of_str "/work";
     remote := fun url =>
       if String.eqb url (endpoint +:+ "/ab/12cd34") then Response 200 payload
       else Response 404 [];
     descriptor_outs0 := outs0 |}.

Definition tagged : World := world (Some ("0.9.0", "abc123")).
Definition untagged : World := world None.

Definition onnx : Path := Pathlib.of_str "/pkg/furiosa/models/data/m/m.onnx".
Definition onnx_dvc : Path := Pathlib.of_str "/pkg/furiosa/models/data/m/m.onnx.dvc".
Definition onnx_cached : Path :=
  Pathlib.of_str "/home/u/.cache/furiosa/models/0.9.0_abc123/m.onnx".
Definition store_entry : Path := Pathlib.of_str "/work/.dvc/cache/ab/12cd34".

Definition start (entries : list (Path * node)) : State :=
  {| fs := {| nodes := list_to_map entries; symlinks := ∅ |}; trace := [] |}.

(** Nothing but the descriptor, declaring 3 bytes. *)
Definition cold : State := start [(onnx_dvc, File [x00])].

(** The descriptor declares 4 bytes; the remote serves 3. *)
Definition cold_wrong_size : State := start [(onnx_dvc, File [x01])].

(** The descriptor declares 4 bytes; the local store holds 3. *)
Definition store_wrong_size : State :=
  start [(onnx_dvc, File [x01]);
         (Pathlib.of_str "/work/.dvc", Dir);
         (Pathlib.of_str "/work/.dvc/cache", Dir);
         (Pathlib.of_str "/work/.dvc/cache/ab", Dir);
         (store_entry, File payload)].

(** A cache entry whose content differs from the remote copy. *)
Definition warm : State := start [(onnx_dvc, File [x00]); (onnx_cached, File stale)].

(** The artifact itself lies next to its descriptor. *)
Definition with_literal : State := start [(onnx_dvc, File [x00]); (onnx, File payload)].

(** Every file of [load_artifacts "m"] is in the cache already. *)
Definition all_cached : State :=
  start [(onnx_dvc, File [x00]);
         (Pathlib.of_str "/pkg/furiosa/models/data/m/m.calib_range.yaml.dvc", File [x00]);
         (onnx_cached, File payload);
         (Pathlib.of_str "/home/u/.cache/furiosa/models/0.9.0_abc123/m.calib_range.yaml",
          File stale);
         (Pathlib.of_str "/home/u/.cache/furiosa/models/0.9.0_abc123/m_warboy_2pe.enf",
          File payload)].

(** A marker directory at the root only. *)
Definition root_marker : State := start [(Pathlib.of_str "/.dvc", Dir)].

(** A directory a thousand levels below the root. *)
Definition deep : Path := mkPath true (List.repeat "a" 1000).

Definition resolver : ArtifactResolver := {| uri := onnx; dvc_cache_path := None |}.

Definition resolver_with_store : ArtifactResolver :=
  {| uri := onnx; dvc_cache_path := Some (Pathlib.of_str "/work/.dvc/cache") |}.

End Sample.

(** ** Running the monad *)

Ltac unfold_io :=
  unfold stat, exists_, is_dir, is_symlink, readlink, open_rb, open_wb,
    mkdir_parents, http_get, glob, truediv_opt, py_assert.

Ltac unfold_monad :=
  unfold mbind, M_bind, mret, M_ret, raise, try_except, log, get_fs, put_fs.

Ltac run := unfold_io; unfold_monad; simpl.

(** * Properties *)

(** ** Facts about slices *)

Section StringFacts.

Lemma append_cons (c : ascii) (s t : string) :
  String c s +:+ t = String c (s +:+ t).
Proof. reflexivity. Qed.

Lemma append_nil (t : string) : EmptyString +:+ t = t.
Proof. reflexivity. Qed.

Lemma take_drop (n : nat) (s : string) : PyStr.take n s +:+ PyStr.drop n s = s.
Proof.
  revert s; induction n as [|n IH]; intros [|c s]; simpl; try reflexivity.
  rewrite append_cons. f_equal. apply IH.
Qed.

Lemma str_length_take (n : nat) (s : string) :
  String.length (PyStr.take n s) = Nat.min n (String.length s).
Proof.
  revert s; induction n as [|n IH]; intros [|c s]; simpl; try reflexivity.
  now rewrite IH.
Qed.

Lemma str_length_app (s t : string) :
  String.length (s +:+ t) = (String.length s + String.length t)%nat.
Proof.
  induction s as [|c s IH]; [reflexivity|].
  rewrite append_cons. simpl. now rewrite IH.
Qed.

Lemma drop_app_length (p s : string) : PyStr.drop (String.length p) (p +:+ s) = s.
Proof.
  induction p as [|c p IH]; [rewrite append_nil; now destruct s|].
  rewrite append_cons. simpl. exact IH.
Qed.

Lemma bound_nonneg (s : string) (k : Z) :
  0 <= k -> PyStr.bound s k = Nat.min (Z.to_nat k) (String.length s).
Proof.
  intros Hk. unfold PyStr.bound, PyStr.len.
  destruct (Z.ltb_spec k 0); lia.
Qed.

(** [endswith] is Python's: true exactly when [base] is some prefix
    followed by [suffix]. *)
Lemma endswith_spec (base suffix : string) :
  PyStr.endswith base suffix = true <-> exists p, base = p +:+ suffix.
Proof.
  unfold PyStr.endswith. rewrite andb_true_iff, Nat.leb_le, String.eqb_eq. split.
  - intros [_ Hd].
    exists (PyStr.take (String.length base - String.length suffix) base).
    pose proof (take_drop (String.length base - String.length suffix) base) as H.
    rewrite Hd in H. now symmetry.
  - intros [p ->]. rewrite str_length_app. split; [lia|].
    replace (String.length p + String.length suffix - String.length suffix)%nat
      with (String.length p) by lia.
    apply drop_app_length.
Qed.

End StringFacts.

(** C10. [removesuffix base suffix]: when [base] ends with [suffix] the
    result followed by [suffix] is [base] again; otherwise the result is
    [base] unchanged. *)
Theorem removesuffix_spec (base suffix : string) :
  if PyStr.endswith base suffix
  then removesuffix base suffix +:+ suffix = base
  else removesuffix base suffix = base.
Proof.
  unfold removesuffix.
  destruct (PyStr.endswith base suffix) eqn:E; [|reflexivity].
  unfold PyStr.endswith in E. apply andb_true_iff in E as [Hle Hd].
  apply Nat.leb_le in Hle. apply String.eqb_eq in Hd.
  unfold PyStr.slice_to, PyStr.len. rewrite bound_nonneg by lia.
  replace (Nat.min _ _) with (String.length base - String.length suffix)%nat by lia.
  pose proof (take_drop (String.length base - String.length suffix) base) as H.
  now rewrite Hd in H.
Qed.

(** ** The descriptor: [parse_dvc_file] *)

Section Descriptor.

Lemma split_md5_two (c1 c2 : ascii) (rest : string) :
  split_md5 (String c1 (String c2 rest)) = (String c1 (String c2 ""), rest).
Proof.
  unfold split_md5, PyStr.slice_to, PyStr.slice_from, PyStr.bound, PyStr.len.
  simpl String.length.
  replace (Z.to_nat _) with 2%nat by (simpl; lia).
  reflexivity.
Qed.

Lemma split_md5_app (md5sum : string) :
  (split_md5 md5sum).1 +:+ (split_md5 md5sum).2 = md5sum.
Proof. apply take_drop. Qed.

End Descriptor.

(** C8. For a descriptor whose hash has at least two characters,
    [parse_dvc_file] returns the first two characters of the hash as the
    directory and the remaining characters as the file name: the directory
    has length 2 and directory followed by file name is the hash. *)
Theorem parse_dvc_file_splits_hash (w : World) (file_path : Path) (st : State)
    (text : bytes) (md5sum : string) (size : Z) :
  node_at w (fs st) (dvc_file_of file_path) = Some (File text) ->
  descriptor_outs0 w text = Return (md5sum, size) ->
  (2 <= String.length md5sum)%nat ->
  exists (c1 c2 : ascii) (rest : string) (st' : State),
    md5sum = String c1 (String c2 rest)
    /\ parse_dvc_file w file_path st
       = (Return (String c1 (String c2 ""), rest, size), st')
    /\ String.length (String c1 (String c2 "")) = 2%nat
    /\ String c1 (String c2 "") +:+ rest = md5sum
    /\ fs st' = fs st.
Proof.
  intros Hnode Hdesc Hlen.
  destruct md5sum as [|c1 [|c2 rest]]; simpl in Hlen; try lia.
  exists c1, c2, rest. eexists. split; [reflexivity|].
  unfold parse_dvc_file. run. rewrite Hnode, Hdesc, split_md5_two.
  repeat split.
Qed.

(** ** Store discovery: [find_dvc_cache_directory] *)

Lemma find_unfold (w : World) (frames : nat) (path : Path) (st : State) :
  find_dvc_cache_directory w (S frames) path st =
  if decide (path = Pathlib.parent path) then (Return None, st)
  else
    match is_dir_error w (path // ".dvc") with
    | Some e => (Raise e, logged (Stat (path // ".dvc")) st)
    | None =>
        if has_marker w (fs st) path
        then (Return (Some (path // ".dvc" // "cache")), logged (Stat (path // ".dvc")) st)
        else find_dvc_cache_directory w frames (Pathlib.parent path)
               (logged (Stat (path // ".dvc")) st)
    end.
Proof.
  simpl. destruct (decide (path = Pathlib.parent path)) as [E|E]; [reflexivity|].
  unfold is_dir, has_marker. destruct (is_dir_error w (path // ".dvc")); [reflexivity|].
  run. destruct (node_at w (fs st) (path // ".dvc")) as [[]|]; reflexivity.
Qed.

Lemma parent_length (p : Path) :
  p <> Pathlib.parent p ->
  (length (components (Pathlib.parent p)) < length (components p))%nat.
Proof.
  destruct p as [a cs]. unfold Pathlib.parent. simpl. intros Hne.
  destruct (decide (cs = [])) as [->|Hcs]; [now contradict Hne|].
  destruct (exists_last Hcs) as (cs' & c & ->).
  rewrite removelast_last, length_app. simpl. lia.
Qed.

Lemma parent_fixed (p : Path) : p = Pathlib.parent p -> components p = [].
Proof.
  destruct p as [a cs]. unfold Pathlib.parent. simpl. intros E. injection E as E.
  destruct (decide (cs = [])) as [->|Hcs]; [reflexivity|].
  destruct (exists_last Hcs) as (l & x & ->).
  rewrite removelast_last in E. apply (f_equal (@length string)) in E.
  rewrite length_app in E. simpl in E. lia.
Qed.

Lemma parent_length_pred (p : Path) :
  length (components (Pathlib.parent p)) = pred (length (components p)).
Proof.
  destruct p as [a cs]. unfold Pathlib.parent. simpl.
  destruct (decide (cs = [])) as [->|Hcs]; [reflexivity|].
  destruct (exists_last Hcs) as (l & x & ->).
  rewrite removelast_last, length_app. simpl. lia.
Qed.

Lemma ancestor_S (k : nat) (p : Path) :
  ancestor (S k) p = ancestor k (Pathlib.parent p).
Proof. unfold ancestor. induction k as [|k IH]; simpl in *; [reflexivity | now rewrite IH]. Qed.

Lemma ancestor_fixed (k : nat) (p : Path) :
  p = Pathlib.parent p -> ancestor k p = p.
Proof. intros E. induction k as [|k IH]; [reflexivity|]. rewrite ancestor_S, <- E. exact IH. Qed.

(** C9, as the code has it. When the interpreter admits more nested calls
    than the starting directory has components, and no [is_dir] test of the
    walk raises, [find_dvc_cache_directory] returns, and the file system is
    unchanged. It returns the cache path [q / ".dvc" / "cache"] of the
    nearest directory [q], among the start and its ancestors strictly below
    the root, that holds a [.dvc] directory; or it returns [None], which is
    no error, on reaching a path that is its own parent, none of the
    directories below that one holding the marker. The path that is its own
    parent is not examined. *)
Theorem find_dvc_cache_directory_walk (w : World) (frames : nat) (path : Path)
    (st : State) :
  (length (components path) < frames)%nat ->
  (forall k : nat, is_dir_error w (ancestor k path // ".dvc") = None) ->
  exists (result : option Path) (st' : State),
    find_dvc_cache_directory w frames path st = (Return result, st')
    /\ fs st' = fs st
    /\ match result with
       | Some cache =>
           exists k : nat,
             ancestor k path <> Pathlib.parent (ancestor k path)
             /\ has_marker w (fs st) (ancestor k path) = true
             /\ (forall j : nat, (j < k)%nat -> has_marker w (fs st) (ancestor j path) = false)
             /\ cache = ancestor k path // ".dvc" // "cache"
       | None =>
           forall j : nat,
             ancestor j path <> Pathlib.parent (ancestor j path) ->
             has_marker w (fs st) (ancestor j path) = false
       end.
Proof.
  revert path st. induction frames as [|frames IH]; intros path st Hdepth Hok; [lia|].
  rewrite find_unfold.
  destruct (decide (path = Pathlib.parent path)) as [E|E].
  - exists None, st. repeat split. intros j Hj. now rewrite ancestor_fixed in Hj.
  - pose proof (Hok 0%nat) as H0. unfold ancestor in H0. simpl in H0. rewrite H0.
    destruct (has_marker w (fs st) path) eqn:Hm.
    + eexists (Some _), _. repeat split.
      exists 0%nat. repeat split; auto. intros j Hj. lia.
    + destruct (IH (Pathlib.parent path) (logged (Stat (path // ".dvc")) st))
        as (result & st' & Hrun & Hfs & Hres).
      { pose proof (parent_length path E). lia. }
      { intros k. rewrite <- ancestor_S. apply Hok. }
      exists result, st'. split; [exact Hrun|]. split; [exact Hfs|].
      simpl in Hres. destruct result as [cache|].
      * destruct Hres as (k & Hk1 & Hk2 & Hk3 & Hk4).
        exists (S k). rewrite ancestor_S. repeat split; auto.
        intros [|j] Hj; [exact Hm|]. rewrite ancestor_S. apply Hk3. lia.
      * intros [|j] Hj; [exact Hm|]. rewrite ancestor_S in *. now apply Hres.
Qed.

Lemma find_dvc_cache_directory_walk_witness :
  exists (result : option Path) (st' : State),
    find_dvc_cache_directory Sample.tagged 1000 (Pathlib.of_str "/work/sub/dir")
      Sample.store_wrong_size
    = (Return result, st')
    /\ fs st' = fs Sample.store_wrong_size
    /\ match result with
       | Some cache =>
           exists k : nat,
             ancestor k (Pathlib.of_str "/work/sub/dir")
             <> Pathlib.parent (ancestor k (Pathlib.of_str "/work/sub/dir"))
             /\ has_marker Sample.tagged (fs Sample.store_wrong_size)
                  (ancestor k (Pathlib.of_str "/work/sub/dir")) = true
             /\ (forall j : nat,
                    (j < k)%nat ->
                    has_marker Sample.tagged (fs Sample.store_wrong_size)
                      (ancestor j (Pathlib.of_str "/work/sub/dir")) = false)
             /\ cache = ancestor k (Pathlib.of_str "/work/sub/dir") // ".dvc" // "cache"
       | None =>
           forall j : nat,
             ancestor j (Pathlib.of_str "/work/sub/dir")
             <> Pathlib.parent (ancestor j (Pathlib.of_str "/work/sub/dir")) ->
             has_marker Sample.tagged (fs Sample.store_wrong_size)
               (ancestor j (Pathlib.of_str "/work/sub/dir")) = false
       end.
Proof.
  apply (find_dvc_cache_directory_walk Sample.tagged 1000
           (Pathlib.of_str "/work/sub/dir") Sample.store_wrong_size).
  - vm_compute. lia.
  - intros k. reflexivity.
Defined.

(** The walk from a directory that is too deep for the frames left, with no
    marker on the way: [RecursionError]. *)
Lemma find_dvc_cache_directory_too_deep (w : World) (frames : nat) (path : Path)
    (st : State) :
  (frames <= length (components path))%nat ->
  (forall k : nat, (k < frames)%nat ->
                   is_dir_error w (ancestor k path // ".dvc") = None
                   /\ has_marker w (fs st) (ancestor k path) = false) ->
  exists st' : State,
    find_dvc_cache_directory w frames path st = (Raise RecursionError, st')
    /\ fs st' = fs st.
Proof.
  revert path st. induction frames as [|frames IH]; intros path st Hdepth Hno.
  - now exists st.
  - rewrite find_unfold.
    destruct (decide (path = Pathlib.parent path)) as [E|E].
    { exfalso. apply parent_fixed in E. rewrite E in Hdepth. simpl in Hdepth. lia. }
    destruct (Hno 0%nat ltac:(lia)) as [He Hm]. unfold ancestor in He, Hm.
    simpl in He, Hm. rewrite He, Hm.
    destruct (IH (Pathlib.parent path) (logged (Stat (path // ".dvc")) st))
      as (st' & Hrun & Hfs).
    { rewrite parent_length_pred. lia. }
    { intros k Hk. rewrite <- ancestor_S. apply Hno. lia. }
    exists st'. split; [exact Hrun | exact Hfs].
Qed.

(** In a file system without entries no directory holds the marker. *)
Lemma has_marker_nowhere (w : World) (f : FileSystem) (p : Path) :
  nodes f = ∅ -> has_marker w f p = false.
Proof.
  intros Hf. unfold has_marker, node_at. rewrite Hf, lookup_empty.
  destruct (components (key w (p // ".dvc"))) eqn:Hc; [|reflexivity].
  exfalso. unfold key, Pathlib.truediv, Pathlib.join in Hc. simpl in Hc.
  destruct (is_absolute p); simpl in Hc;
    repeat (apply app_eq_nil in Hc as [_ Hc]); discriminate.
Qed.

(** C9, as stated, fails, in two ways. A marker directory of the root
    itself is not found: the walk returns [None] although the root is the
    nearest ancestor that holds [.dvc]. And from a directory a thousand
    levels deep, with the thousand nested calls of the default recursion
    limit, the walk does not return: it raises [RecursionError]. *)
Lemma find_dvc_cache_directory_misses_root_and_depth :
  (has_marker Sample.tagged (fs Sample.root_marker) (Pathlib.of_str "/") = true
   /\ (find_dvc_cache_directory Sample.tagged 1000 (Pathlib.of_str "/work")
         Sample.root_marker).1
      = Return None)
  /\ (find_dvc_cache_directory Sample.tagged 1000 Sample.deep (Sample.start [])).1
     = Raise RecursionError.
Proof.
  split; [split; vm_compute; reflexivity|].
  assert (Hdepth : (1000 <= length (components Sample.deep))%nat).
  { change (components Sample.deep) with (List.repeat "a"%string 1000).
    rewrite repeat_length. apply le_n. }
  destruct (find_dvc_cache_directory_too_deep Sample.tagged 1000 Sample.deep
              (Sample.start []) Hdepth) as (st' & Hrun & _).
  - intros k _. split; [reflexivity|]. now apply has_marker_nowhere.
  - exact (f_equal fst Hrun).
Qed.

(** An [is_dir] test that raises ends the walk with its error. *)
Lemma find_dvc_cache_directory_is_dir_error (w : World) (frames : nat) (path : Path)
    (st : State) (e : exn) :
  path <> Pathlib.parent path ->
  is_dir_error w (path // ".dvc") = Some e ->
  find_dvc_cache_directory w (S frames) path st
  = (Raise e, logged (Stat (path // ".dvc")) st).
Proof.
  intros Hne He. rewrite find_unfold.
  destruct (decide (path = Pathlib.parent path)); [contradiction|]. now rewrite He.
Qed.

Example find_dvc_cache_directory_nearest :
  (find_dvc_cache_directory Sample.tagged 1000 (Pathlib.of_str "/work/sub/dir")
     Sample.store_wrong_size).1
  = Return (Some (Pathlib.of_str "/work/.dvc/cache")).
Proof. vm_compute. reflexivity. Qed.

(** ** The tiers of [read] *)

Section ReadSteps.

Variable w : World.

Lemma exists_run (p : Path) (st : State) :
  exists_ w p st
  = (Return (match node_at w (fs st) p with Some _ => true | None => false end),
     logged (Stat p) st).
Proof. reflexivity. Qed.

Lemma open_rb_file (p : Path) (st : State) (data : bytes) :
  node_at w (fs st) p = Some (File data) ->
  open_rb w p st = (Return data, logged (OpenRead p) st).
Proof. intros H. run. now rewrite H. Qed.

(** Tier 1 hit: the cache entry is returned and nothing else happens. *)
Lemma read_hits_cache (r : ArtifactResolver) (st : State) (v : string) (data : bytes) :
  version_info w = Some v ->
  node_at w (fs st) (cache_path_for w v r) = Some (File data) ->
  read w r st
  = (Return data,
     {| fs := fs st;
        trace := trace st ++ [Stat (cache_path_for w v r); OpenRead (cache_path_for w v r)] |}).
Proof.
  intros Hv Hnode. unfold read. rewrite Hv. run.
  fold (cache_path_for w v r). rewrite Hnode. simpl. rewrite Hnode.
  unfold logged. simpl. now rewrite <- app_assoc.
Qed.

(** Without a version tag [read] stops before the first tier. *)
Lemma read_no_version (r : ArtifactResolver) (st : State) :
  version_info w = None -> read w r st = (Raise TypeError, st).
Proof. intros Hv. unfold read. now rewrite Hv. Qed.

Lemma mkdir_chain_symlinks (target : Path) (qs : list Path) (f f' : FileSystem) :
  mkdir_chain target qs f = Return f' -> symlinks f' = symlinks f.
Proof.
  revert f. induction qs as [|q qs IH]; simpl; intros f H.
  - now inversion H.
  - destruct (nodes f !! q) as [[]|]; try discriminate.
    + now apply IH.
    + apply IH in H. exact H.
Qed.

(** A successful remote fetch leaves the bytes at the cache path. *)
Lemma fetch_remote_success (r : ArtifactResolver) (directory filename : string)
    (size : Z) (st st1 : State) (data : bytes) :
  fetch_remote w r directory filename size st = (Return data, st1) ->
  exists v : string,
    version_info w = Some v
    /\ node_at w (fs st1) (cache_path_for w v r) = Some (File data)
    /\ remote w (get_url w directory filename) = Response 200 data
    /\ len data = size.
Proof.
  unfold fetch_remote. run.
  destruct (remote w (get_url w directory filename)) as [status body|]; [|discriminate].
  simpl. destruct (Z.eqb_spec status 200) as [->|]; simpl; [|discriminate].
  destruct (Z.eqb_spec (len body) size) as [Hsz|]; simpl; [|discriminate].
  destruct (version_info w) as [v|]; simpl; [|discriminate].
  fold (cache_path_for w v r).
  set (cp := cache_path_for w v r).
  destruct (mkdir_chain _ _ _) as [f'|]; simpl; [|discriminate].
  unfold node_at.
  destruct (components (key w cp)) eqn:Hc; [discriminate|].
  destruct (nodes f' !! key w cp) as [[]|] eqn:Hn; try discriminate;
    (destruct (match components (key w (Pathlib.parent (key w cp))) with
               | [] => Some Dir | _ :: _ => nodes f' !! key w (Pathlib.parent (key w cp)) end)
       as [[]|]; try discriminate);
    intros H; inversion H; subst; simpl; exists v; rewrite lookup_insert_eq;
    change (cache_path_for w v r) with cp; rewrite Hc; auto.
Qed.

End ReadSteps.

(** ** Steps that only look *)

Section Quiet.

Variable w : World.

Lemma quiet_refl (st : State) : quiet st st.
Proof.
  split; [reflexivity|]. exists []. rewrite app_nil_r.
  split; [reflexivity|].
  split; [intros url H | intros p; split; intros H]; inversion H.
Qed.

Lemma quiet_trans (st1 st2 st3 : State) : quiet st1 st2 -> quiet st2 st3 -> quiet st1 st3.
Proof.
  intros [Hf1 (e1 & Ht1 & Hn1 & Hw1)] [Hf2 (e2 & Ht2 & Hn2 & Hw2)].
  split; [congruence|]. exists (e1 ++ e2).
  split; [rewrite Ht2, Ht1; now rewrite app_assoc|].
  split.
  - intros url H. apply elem_of_app in H as [H|H]; [now apply (Hn1 url) | now apply (Hn2 url)].
  - intros p. split; intros H; apply elem_of_app in H as [H|H];
      solve [now apply (Hw1 p) in H | now apply (Hw2 p) in H].
Qed.

Lemma quiet_logged (e : Event) (st : State) : is_probe e = true -> quiet st (logged e st).
Proof.
  intros He. split; [reflexivity|]. exists [e]. split; [reflexivity|].
  split; [intros url H | intros p; split; intros H];
    apply list_elem_of_singleton in H; subst e; discriminate.
Qed.

Lemma exists_quiet (p : Path) (st st' : State) (b : bool) :
  exists_ w p st = (Return b, st') -> quiet st st'.
Proof. rewrite exists_run. intros H. inversion H. now apply quiet_logged. Qed.

Lemma open_rb_quiet (p : Path) (st st' : State) (res : Result bytes) :
  open_rb w p st = (res, st') -> quiet st st'.
Proof.
  run. destruct (node_at w (fs st) p) as [[]|]; intros H; inversion H;
    now apply (quiet_logged (OpenRead p)).
Qed.

Lemma parse_dvc_file_quiet (p : Path) (st st' : State) (res : Result (string * string * Z)) :
  parse_dvc_file w p st = (res, st') -> quiet st st'.
Proof.
  unfold parse_dvc_file. run.
  destruct (node_at w (fs st) (dvc_file_of p)) as [[text|]|];
    [destruct (descriptor_outs0 w text) as [[]|]|..];
    intros H; inversion H; now apply (quiet_logged (ReadDescriptor (dvc_file_of p))).
Qed.

Lemma read_dvc_cache_quiet (r : ArtifactResolver) (directory filename : string)
    (size : Z) (st st' : State) (res : Result (option bytes)) :
  read_dvc_cache w r directory filename size st = (res, st') -> quiet st st'.
Proof.
  unfold read_dvc_cache. destruct (dvc_cache_path r) as [root|].
  - unfold mbind, M_bind at 1. rewrite exists_run.
    set (cached := root // directory // filename).
    destruct (node_at w (fs st) cached) as [n|] eqn:Hn.
    + unfold mbind, M_bind.
      destruct (open_rb w cached (logged (Stat cached) st)) as [[data|e] st1] eqn:Ho;
        apply open_rb_quiet in Ho.
      * unfold py_assert. destruct (len data =? size); run; intros H; inversion H; subst;
          (eapply quiet_trans; [|exact Ho]; now apply quiet_logged).
      * intros H; inversion H; subst.
        eapply quiet_trans; [|exact Ho]; now apply quiet_logged.
    + run. intros H; inversion H. now apply quiet_logged.
  - run. intros H; inversion H. apply quiet_refl.
Qed.

(** A successful [read] either only looked at the file system, or
    fetched from the remote and left the bytes at the cache path. *)
Lemma read_success_cases (r : ArtifactResolver) (st st1 : State) (data : bytes) :
  read w r st = (Return data, st1) ->
  quiet st st1
  \/ exists v : string,
       version_info w = Some v
       /\ node_at w (fs st1) (cache_path_for w v r) = Some (File data).
Proof.
  unfold read. destruct (version_info w) as [v|] eqn:Hv; [|discriminate].
  unfold truediv_opt. unfold mbind, M_bind at 1. unfold mret, M_ret at 1.
  fold (cache_path_for w v r). set (cp := cache_path_for w v r).
  unfold mbind, M_bind at 1. rewrite exists_run.
  destruct (node_at w (fs st) cp) as [n|] eqn:Hcp.
  { intros H. left. apply open_rb_quiet in H.
    eapply quiet_trans; [|exact H]; now apply quiet_logged. }
  unfold mbind, M_bind at 1. rewrite exists_run.
  assert (Q1 : quiet st (logged (Stat (uri r)) (logged (Stat cp) st))).
  { apply (quiet_trans _ (logged (Stat cp) st)); now apply quiet_logged. }
  set (s1 := logged (Stat (uri r)) (logged (Stat cp) st)) in *.
  destruct (node_at w (fs (logged (Stat cp) st)) (uri r)) as [n|] eqn:Huri.
  { intros H. left. apply open_rb_quiet in H. eapply quiet_trans; eauto. }
  unfold mbind, M_bind at 1.
  destruct (parse_dvc_file w (uri r) s1) as [[[[directory filename] size]|e] s2] eqn:Hp;
    [|discriminate].
  apply parse_dvc_file_quiet in Hp.
  unfold mbind, M_bind at 1.
  destruct (read_dvc_cache w r directory filename size s2) as [[[d|]|e] s3] eqn:Hd;
    try discriminate; apply read_dvc_cache_quiet in Hd.
  - intros H. inversion H; subst. left.
    eapply quiet_trans; [exact Q1|]. eapply quiet_trans; eauto.
  - intros H. right. apply fetch_remote_success in H as (v' & Hv' & Hn & _).
    exists v'. split; [congruence|exact Hn].
Qed.

End Quiet.

(** ** [read] *)

(** C3. When the version-namespaced cache path holds an entry, [read]
    returns the bytes of that entry and does nothing beyond probing and
    opening that one path: no literal-path read, no descriptor parse, no
    store lookup, no remote request, whatever the remote would serve. *)
Theorem read_cache_entry_wins (w : World) (r : ArtifactResolver) (st : State)
    (v : string) (data : bytes) :
  version_info w = Some v ->
  node_at w (fs st) (cache_path_for w v r) = Some (File data) ->
  read w r st
  = (Return data,
     {| fs := fs st;
        trace := trace st ++ [Stat (cache_path_for w v r);
                              OpenRead (cache_path_for w v r)] |}).
Proof. apply read_hits_cache. Qed.

Lemma read_cache_entry_wins_witness :
  remote Sample.tagged (get_url Sample.tagged "ab" "12cd34") = Response 200 Sample.payload
  /\ read Sample.tagged Sample.resolver Sample.warm
     = (Return Sample.stale,
        {| fs := fs Sample.warm;
           trace := [Stat Sample.onnx_cached; OpenRead Sample.onnx_cached] |}).
Proof.
  split; [reflexivity|].
  apply (read_cache_entry_wins Sample.tagged Sample.resolver Sample.warm
           "0.9.0_abc123" Sample.stale); vm_compute; reflexivity.
Defined.

(** C1, as the code has it. Without a version tag [read] does not skip the
    first tier: forming the cache path fails, and [read] stops there, before
    any tier is consulted and with the state untouched. *)
Theorem read_without_version_tag (w : World) (r : ArtifactResolver) (st : State) :
  version_info w = None ->
  read w r st = (Raise TypeError, st).
Proof. apply read_no_version. Qed.

Lemma read_without_version_tag_witness :
  read Sample.untagged Sample.resolver Sample.with_literal
  = (Raise TypeError, Sample.with_literal).
Proof.
  apply (read_without_version_tag Sample.untagged Sample.resolver Sample.with_literal).
  reflexivity.
Defined.

(** C1, as stated, fails: with no version tag and the artifact present at
    its literal path, [read] does not fall through to that path; it raises,
    and no path was probed or opened. *)
Lemma read_does_not_fall_through :
  version_info Sample.untagged = None
  /\ node_at Sample.untagged (fs Sample.with_literal) (uri Sample.resolver)
     = Some (File Sample.payload)
  /\ ~ (exists (data : bytes) (st' : State),
          read Sample.untagged Sample.resolver Sample.with_literal = (Return data, st'))
  /\ trace (read Sample.untagged Sample.resolver Sample.with_literal).2 = [].
Proof.
  split; [reflexivity|]. split; [vm_compute; reflexivity|]. split; [|reflexivity].
  intros (data & st' & H). vm_compute in H. discriminate.
Qed.

(** C5. After a [read] that succeeded through a remote fetch, a second
    [read] of the same reference returns the same bytes from the cache
    entry the first one wrote, and makes no remote request. *)
Theorem read_again_hits_cache (w : World) (r : ArtifactResolver) (st st1 : State)
    (data : bytes) (evs : list Event) (url : string) :
  read w r st = (Return data, st1) ->
  trace st1 = trace st ++ evs ->
  HttpGet url ∈ evs ->
  exists v : string,
    version_info w = Some v
    /\ read w r st1
       = (Return data,
          {| fs := fs st1;
             trace := trace st1 ++ [Stat (cache_path_for w v r);
                                    OpenRead (cache_path_for w v r)] |}).
Proof.
  intros Hread Htrace Hget.
  destruct (read_success_cases w r st st1 data Hread)
    as [[_ (evs' & Ht & Hnf & _)] | (v & Hv & Hnode)].
  - rewrite Htrace in Ht. apply app_inv_head in Ht. subst evs'.
    now apply Hnf in Hget.
  - exists v. split; [exact Hv|]. now apply read_hits_cache.
Qed.

Lemma read_again_hits_cache_witness :
  exists v : string,
    version_info Sample.tagged = Some v
    /\ read Sample.tagged Sample.resolver (read Sample.tagged Sample.resolver Sample.cold).2
       = (Return Sample.payload,
          {| fs := fs (read Sample.tagged Sample.resolver Sample.cold).2;
             trace := trace (read Sample.tagged Sample.resolver Sample.cold).2
                      ++ [Stat (cache_path_for Sample.tagged v Sample.resolver);
                          OpenRead (cache_path_for Sample.tagged v Sample.resolver)] |}).
Proof.
  apply (read_again_hits_cache Sample.tagged Sample.resolver Sample.cold
           (read Sample.tagged Sample.resolver Sample.cold).2 Sample.payload
           [Stat Sample.onnx_cached; Stat Sample.onnx; ReadDescriptor Sample.onnx_dvc;
            HttpGet (Sample.endpoint +:+ "/ab/12cd34");
            Mkdir (Pathlib.parent Sample.onnx_cached); OpenWrite Sample.onnx_cached]
           (Sample.endpoint +:+ "/ab/12cd34")).
  - vm_compute. reflexivity.
  - vm_compute. reflexivity.
  - do 3 apply list_elem_of_further. apply list_elem_of_here.
Defined.

(** ** Size checks *)

Section SizeCheck.

Variable w : World.

Lemma parse_dvc_file_run (p : Path) (st : State) (text : bytes)
    (md5sum : string) (size : Z) :
  node_at w (fs st) (dvc_file_of p) = Some (File text) ->
  descriptor_outs0 w text = Return (md5sum, size) ->
  parse_dvc_file w p st
  = (Return (split_md5 md5sum, size), logged (ReadDescriptor (dvc_file_of p)) st).
Proof. intros Hn Hd. unfold parse_dvc_file. run. now rewrite Hn, Hd. Qed.

Lemma read_dvc_cache_mismatch (r : ArtifactResolver) (directory filename : string)
    (size : Z) (st : State) (root : Path) (data : bytes) :
  dvc_cache_path r = Some root ->
  node_at w (fs st) (root // directory // filename) = Some (File data) ->
  len data <> size ->
  read_dvc_cache w r directory filename size st
  = (Raise AssertionError,
     logged (OpenRead (root // directory // filename))
       (logged (Stat (root // directory // filename)) st)).
Proof.
  intros Hroot Hn Hlen. apply Z.eqb_neq in Hlen.
  unfold read_dvc_cache. rewrite Hroot.
  unfold mbind, M_bind at 1. rewrite exists_run, Hn.
  unfold mbind, M_bind at 1. rewrite (open_rb_file w _ _ data) by exact Hn.
  unfold py_assert. rewrite Hlen. reflexivity.
Qed.

Lemma read_dvc_cache_miss (r : ArtifactResolver) (directory filename : string)
    (size : Z) (st : State) :
  (forall root : Path,
      dvc_cache_path r = Some root ->
      node_at w (fs st) (root // directory // filename) = None) ->
  exists st' : State,
    read_dvc_cache w r directory filename size st = (Return None, st')
    /\ quiet st st'.
Proof.
  intros Hmiss. unfold read_dvc_cache.
  destruct (dvc_cache_path r) as [root|].
  - unfold mbind, M_bind at 1. rewrite exists_run, (Hmiss root eq_refl).
    eexists. split; [reflexivity|]. now apply quiet_logged.
  - eexists. split; [reflexivity|]. apply quiet_refl.
Qed.

Lemma fetch_remote_mismatch (r : ArtifactResolver) (directory filename : string)
    (size : Z) (st : State) (data : bytes) :
  remote w (get_url w directory filename) = Response 200 data ->
  len data <> size ->
  fetch_remote w r directory filename size st
  = (Raise AssertionError, logged (HttpGet (get_url w directory filename)) st).
Proof.
  intros Hr Hlen. apply Z.eqb_neq in Hlen.
  unfold fetch_remote, http_get. unfold_monad. rewrite Hr. simpl.
  unfold py_assert. rewrite Hlen. reflexivity.
Qed.

(** The first two tiers miss and the descriptor parses. *)
Lemma read_reaches_store (r : ArtifactResolver) (st : State) (v : string)
    (text : bytes) (md5sum : string) (size : Z) :
  version_info w = Some v ->
  node_at w (fs st) (cache_path_for w v r) = None ->
  node_at w (fs st) (uri r) = None ->
  node_at w (fs st) (dvc_file_of (uri r)) = Some (File text) ->
  descriptor_outs0 w text = Return (md5sum, size) ->
  exists s2 : State,
    quiet st s2
    /\ read w r st
       = (found ← read_dvc_cache w r (split_md5 md5sum).1 (split_md5 md5sum).2 size;
          match found with
          | Some data => mret data
          | None => fetch_remote w r (split_md5 md5sum).1 (split_md5 md5sum).2 size
          end) s2.
Proof.
  intros Hv Hcp Huri Hdvc Hdesc.
  exists (logged (ReadDescriptor (dvc_file_of (uri r)))
            (logged (Stat (uri r)) (logged (Stat (cache_path_for w v r)) st))).
  split.
  - eapply quiet_trans; [|now apply quiet_logged].
    eapply quiet_trans; now apply quiet_logged.
  - unfold read. rewrite Hv. unfold truediv_opt.
    unfold mbind, M_bind at 1. unfold mret, M_ret at 1.
    fold (cache_path_for w v r).
    unfold mbind, M_bind at 1. rewrite exists_run, Hcp.
    unfold mbind, M_bind at 1. rewrite exists_run.
    change (fs (logged _ st)) with (fs st). rewrite Huri.
    unfold mbind, M_bind at 1.
    rewrite (parse_dvc_file_run _ _ text md5sum size) by assumption.
    destruct (split_md5 md5sum) as [directory filename]. reflexivity.
Qed.

End SizeCheck.

(** C2, as the code has it. When the bytes read from the content-addressed
    store, or the body of a 200 response of the remote, differ in length
    from the size the descriptor declares, [read] fails on its [assert]:
    it raises [AssertionError]. The file system is left as it was: up to
    the failure [read] only probed and read, and in the remote case made
    the one request, so no file appears at the cache path. *)
Theorem read_size_mismatch (w : World) (r : ArtifactResolver) (st : State)
    (v : string) (text : bytes) (md5sum : string) (size : Z) (data : bytes) :
  version_info w = Some v ->
  node_at w (fs st) (cache_path_for w v r) = None ->
  node_at w (fs st) (uri r) = None ->
  node_at w (fs st) (dvc_file_of (uri r)) = Some (File text) ->
  descriptor_outs0 w text = Return (md5sum, size) ->
  len data <> size ->
  (exists root : Path,
      dvc_cache_path r = Some root
      /\ node_at w (fs st) (root // (split_md5 md5sum).1 // (split_md5 md5sum).2)
         = Some (File data))
  \/ ((forall root : Path,
         dvc_cache_path r = Some root ->
         node_at w (fs st) (root // (split_md5 md5sum).1 // (split_md5 md5sum).2) = None)
      /\ remote w (get_url w (split_md5 md5sum).1 (split_md5 md5sum).2)
         = Response 200 data) ->
  exists st' : State,
    read w r st = (Raise AssertionError, st')
    /\ fs st' = fs st
    /\ (quiet st st'
        \/ exists st0 : State,
             quiet st st0
             /\ st' = logged (HttpGet (get_url w (split_md5 md5sum).1 (split_md5 md5sum).2)) st0).
Proof.
  intros Hv Hcp Huri Hdvc Hdesc Hlen Htier.
  destruct (read_reaches_store w r st v text md5sum size Hv Hcp Huri Hdvc Hdesc)
    as (s2 & Hq & ->).
  pose proof Hq as [Hfs _].
  destruct Htier as [(root & Hroot & Hhit) | [Hmiss Hremote]].
  - rewrite <- Hfs in Hhit.
    unfold mbind, M_bind at 1.
    rewrite (read_dvc_cache_mismatch w r _ _ size s2 root data Hroot Hhit Hlen).
    eexists. split; [reflexivity|]. split; [exact Hfs|]. left.
    eapply quiet_trans; [exact Hq|].
    eapply quiet_trans; now apply quiet_logged.
  - destruct (read_dvc_cache_miss w r (split_md5 md5sum).1 (split_md5 md5sum).2 size s2)
      as (s3 & Hrun & Hq3).
    { intros root Hroot. rewrite Hfs. now apply Hmiss. }
    unfold mbind, M_bind at 1. rewrite Hrun.
    rewrite (fetch_remote_mismatch w r _ _ size s3 data Hremote Hlen).
    eexists. split; [reflexivity|].
    destruct Hq3 as [Hfs3 Hev3]. split; [simpl; congruence|]. right.
    exists s3. split; [|reflexivity].
    eapply quiet_trans; [exact Hq|]. split; assumption.
Qed.

Lemma read_size_mismatch_witness :
  exists st' : State,
    read Sample.tagged Sample.resolver Sample.cold_wrong_size = (Raise AssertionError, st')
    /\ fs st' = fs Sample.cold_wrong_size
    /\ (quiet Sample.cold_wrong_size st'
        \/ exists st0 : State,
             quiet Sample.cold_wrong_size st0
             /\ st' = logged (HttpGet (get_url Sample.tagged
                                          (split_md5 "ab12cd34").1 (split_md5 "ab12cd34").2)) st0).
Proof.
  apply (read_size_mismatch Sample.tagged Sample.resolver Sample.cold_wrong_size
           "0.9.0_abc123" [Byte.x01] "ab12cd34" 4 Sample.payload).
  - reflexivity.
  - vm_compute. reflexivity.
  - vm_compute. reflexivity.
  - vm_compute. reflexivity.
  - reflexivity.
  - vm_compute. discriminate.
  - right. split; [intros root H; discriminate | vm_compute; reflexivity].
Defined.

(** C2, as stated, fails. The store holds 3 bytes where the descriptor
    declares 4: [read] raises the built-in [AssertionError] of its [assert]
    statement, which is none of the error classes of the package; and
    likewise when the remote serves the 3 bytes. *)
Lemma read_size_mismatch_raises_assertion :
  (read Sample.tagged Sample.resolver_with_store Sample.store_wrong_size).1
  = Raise AssertionError
  /\ (read Sample.tagged Sample.resolver Sample.cold_wrong_size).1 = Raise AssertionError
  /\ is_package_error AssertionError = false.
Proof. vm_compute. repeat split. Qed.

(** ** [resolve_file] *)

Section ResolveFile.

Variable w : World.

(** The walk only probes. *)
Lemma find_dvc_cache_directory_quiet (frames : nat) (path : Path) (st st' : State)
    (res : Result (option Path)) :
  find_dvc_cache_directory w frames path st = (res, st') -> quiet st st'.
Proof.
  revert path st. induction frames as [|frames IH]; intros path st.
  - intros H. inversion H. apply quiet_refl.
  - rewrite find_unfold.
    destruct (decide (path = Pathlib.parent path)).
    { intros H. inversion H. apply quiet_refl. }
    destruct (is_dir_error w (path // ".dvc")).
    { intros H. inversion H. now apply quiet_logged. }
    destruct (has_marker w (fs st) path).
    { intros H. inversion H. now apply quiet_logged. }
    intros H. apply IH in H. eapply quiet_trans; [|exact H]. now apply quiet_logged.
Qed.

(** With [DVC_REPO] set the constructor fails: the value is a [str]. *)
Lemma ArtifactResolver_init_environ (uri0 : Path) (st : State) (s : string) :
  environ_DVC_REPO w = Some s ->
  exists (e : exn) (st' : State), ArtifactResolver_init w uri0 st = (Raise e, st').
Proof.
  intros He. unfold ArtifactResolver_init. unfold mbind, M_bind at 1.
  destruct (find_dvc_cache_directory w (recursion_frames w) (cwd w) st) as [[found|e] st'].
  - rewrite He. now eexists _, _.
  - now eexists _, _.
Qed.

(** Without a version tag the body of the [try] always raises. *)
Lemma init_then_read_raises (full_path : Path) (st : State) :
  version_info w = None ->
  exists (e : exn) (st' : State),
    (r ← ArtifactResolver_init w full_path; read w r) st = (Raise e, st').
Proof.
  intros Hv. unfold mbind, M_bind at 1.
  destruct (ArtifactResolver_init w full_path st) as [[r|e] st1].
  - rewrite read_no_version by exact Hv. now eexists _, _.
  - now eexists _, _.
Qed.

(** The path of a generated artifact. The test of line 162 never fires. *)
Lemma locate_generated (src_name extension generated_suffix : string) (st : State) :
  PyStr.lower extension ∈ GENERATED_EXTENSIONS ->
  locate w src_name extension generated_suffix st
  = (Return (DATA_DIRECTORY_BASE w
             // (("generated/" +:+ format_opt (version_info w)) +:+ "/"
                 +:+ (src_name +:+ generated_suffix +:+ "." +:+ extension))),
     st).
Proof. intros H. unfold locate. now rewrite bool_decide_eq_true_2. Qed.

(** [locate] raises nothing but the [RuntimeError] of an empty glob. *)
Lemma locate_raises (src_name extension generated_suffix : string) (st st' : State)
    (e : exn) :
  locate w src_name extension generated_suffix st = (Raise e, st') -> e = RuntimeError.
Proof.
  unfold locate. case_bool_decide; simpl; [discriminate|].
  run. destruct (List.map _ _); intros Hr; inversion Hr; reflexivity.
Qed.

(** What [resolve_file] can raise: [RuntimeError] from the search for the
    descriptor, outside the [try]; [ArtifactNotFound] from the handler. *)
Lemma resolve_file_raises (src_name extension generated_suffix : string)
    (st st' : State) (e : exn) :
  resolve_file w src_name extension generated_suffix st = (Raise e, st') ->
  e = RuntimeError \/ exists msg : string, e = ArtifactNotFound msg.
Proof.
  unfold resolve_file. unfold mbind, M_bind at 1.
  destruct (locate w src_name extension generated_suffix st) as [[full_path|e0] st1] eqn:Hl.
  - unfold try_except.
    destruct (M_bind _ _ _ _ st1) as [[data|e1] st2].
    + intros H. discriminate H.
    + unfold raise. intros H. inversion H. right. now eexists.
  - intros H. inversion H; subst. left. now apply locate_raises in Hl.
Qed.

(** A generated artifact without a version tag: [ArtifactNotFound]. *)
Lemma resolve_file_generated_untagged (src_name extension generated_suffix : string)
    (st : State) :
  version_info w = None ->
  PyStr.lower extension ∈ GENERATED_EXTENSIONS ->
  exists (msg : string) (st' : State),
    resolve_file w src_name extension generated_suffix st
    = (Raise (ArtifactNotFound msg), st').
Proof.
  intros Hv Hg. unfold resolve_file. unfold mbind at 1. unfold M_bind at 1.
  rewrite locate_generated by exact Hg.
  unfold try_except.
  destruct (init_then_read_raises
              (DATA_DIRECTORY_BASE w
               // (("generated/" +:+ format_opt (version_info w)) +:+ "/"
                   +:+ (src_name +:+ generated_suffix +:+ "." +:+ extension))) st Hv)
    as (e & st' & ->).
  now eexists _, _.
Qed.

End ResolveFile.

Example ArtifactResolver_init_finds_store :
  (ArtifactResolver_init Sample.tagged Sample.onnx Sample.store_wrong_size).1
  = Return Sample.resolver_with_store.
Proof. vm_compute. reflexivity. Qed.

(** C6. The code at the failing input: the generated extension ["enf"] with
    no version tag. [resolve_file] raises [ArtifactNotFound], for the path
    built from the text ["None"], and not [VersionInfoNotFound]. *)
Theorem resolve_file_enf_untagged :
  version_info Sample.untagged = None
  /\ (resolve_file Sample.untagged "m" EXT_ENF DEFAULT_GENERATED_SUFFIX Sample.cold).1
     = Raise (ArtifactNotFound
                "m:/pkg/furiosa/models/data/generated/None/m_warboy_2pe.enf.enf").
Proof. split; vm_compute; reflexivity. Qed.

(** C7. The code at the failing input: no descriptor of the artifact matches
    the extension. [next] on the empty glob is outside the [try], and
    [resolve_file] lets the [RuntimeError] through, which is none of the
    error classes of the package. *)
Theorem resolve_file_no_descriptor :
  (glob Sample.tagged (DATA_DIRECTORY_BASE Sample.tagged // "m")
     ("*." +:+ EXT_CALIB_YAML +:+ ".dvc") Sample.cold).1 = Return []
  /\ (resolve_file Sample.tagged "m" EXT_CALIB_YAML DEFAULT_GENERATED_SUFFIX Sample.cold).1
     = Raise RuntimeError
  /\ is_package_error RuntimeError = false.
Proof. repeat split; vm_compute; reflexivity. Qed.

(** ** Coroutines awaited on their own *)

Section Alone.

Context {A B : Type}.

Lemma run_alone_bind (f : A -> Co B) (x : Run A) :
  run_alone (bind_run f x)
  = match run_alone x with
    | (Return a, st) => run_alone (f a st)
    | (Raise e, st) => (Raise e, st)
    end.
Proof.
  induction x as [[a|e] st | st resume IH]; simpl; try reflexivity. apply IH.
Qed.

Lemma run_alone_try (handler : exn -> Co A) (x : Run A) :
  run_alone (try_run handler x)
  = match run_alone x with
    | (Return a, st) => (Return a, st)
    | (Raise e, st) => run_alone (handler e st)
    end.
Proof.
  induction x as [[a|e] st | st resume IH]; simpl; try reflexivity. apply IH.
Qed.

Lemma run_alone_exit (x : Run A) : run_alone (exit_run x) = run_alone x.
Proof. induction x as [r st | st resume IH]; simpl; [reflexivity | apply IH]. Qed.

Lemma run_alone_atomic (m : M A) (st : State) : run_alone (atomic m st) = m st.
Proof. unfold atomic. now destruct (m st). Qed.

Lemma run_alone_await_io (m : M A) (st : State) : run_alone (await_io m st) = m st.
Proof. unfold await_io. simpl. now destruct (m st). Qed.

End Alone.

Lemma run_alone_suspend (st : State) : run_alone (suspend st) = (Return tt, st).
Proof. reflexivity. Qed.

Section AloneResolver.

Variable w : World.

Lemma read_dvc_cache_alone (r : ArtifactResolver) (directory filename : string)
    (size : Z) (st : State) :
  run_alone (read_dvc_cache_coroutine w r directory filename size st)
  = read_dvc_cache w r directory filename size st.
Proof.
  unfold read_dvc_cache_coroutine, read_dvc_cache.
  destruct (dvc_cache_path r) as [root|]; [|reflexivity].
  unfold mbind, Co_bind, M_bind. rewrite run_alone_bind, run_alone_atomic.
  destruct (exists_ w _ st) as [[[]|e] s1]; try reflexivity.
  rewrite run_alone_bind, run_alone_await_io.
  destruct (open_rb w _ s1) as [[data|e] s2]; [|reflexivity].
  rewrite run_alone_bind, run_alone_atomic.
  destruct (py_assert _ s2) as [[[]|e] s3]; reflexivity.
Qed.

Lemma fetch_remote_alone (r : ArtifactResolver) (directory filename : string)
    (size : Z) (st : State) :
  run_alone (fetch_remote_coroutine w r directory filename size st)
  = fetch_remote w r directory filename size st.
Proof.
  unfold fetch_remote_coroutine, fetch_remote, async_with.
  rewrite run_alone_exit.
  unfold mbind, Co_bind, M_bind. rewrite run_alone_bind, run_alone_await_io.
  destruct (http_get w _ st) as [[[status data]|e] s1]; [|reflexivity].
  destruct (negb (status =? 200)); [apply run_alone_atomic|].
  rewrite run_alone_bind, run_alone_suspend.
  rewrite run_alone_bind, run_alone_atomic.
  destruct (py_assert _ s1) as [[[]|e] s2]; [|reflexivity].
  rewrite run_alone_bind, run_alone_atomic.
  destruct (truediv_opt _ _ s2) as [[base|e] s3]; [|reflexivity].
  rewrite run_alone_bind, run_alone_atomic.
  destruct (mkdir_parents w _ s3) as [[[]|e] s4]; [|reflexivity].
  rewrite run_alone_bind, run_alone_await_io.
  destruct (open_wb w _ _ s4) as [[[]|e] s5]; reflexivity.
Qed.

(** Awaited on its own, the coroutine [read] is [read]. *)
Lemma read_alone (r : ArtifactResolver) (st : State) :
  run_alone (read_coroutine w r st) = read w r st.
Proof.
  unfold read_coroutine, read.
  unfold mbind, Co_bind, M_bind. rewrite run_alone_bind, run_alone_atomic.
  destruct (truediv_opt _ _ st) as [[base|e] s1]; [|reflexivity].
  rewrite run_alone_bind, run_alone_atomic.
  destruct (exists_ w _ s1) as [[[]|e] s2]; try reflexivity.
  { apply run_alone_await_io. }
  rewrite run_alone_bind, run_alone_atomic.
  destruct (exists_ w (uri r) s2) as [[[]|e] s3]; try reflexivity.
  { apply run_alone_await_io. }
  rewrite run_alone_bind, run_alone_atomic.
  destruct (parse_dvc_file w (uri r) s3) as [[[[directory filename] size]|e] s4];
    [|reflexivity].
  rewrite run_alone_bind, read_dvc_cache_alone.
  destruct (read_dvc_cache w r directory filename size s4) as [[[data|]|e] s5];
    try reflexivity.
  apply fetch_remote_alone.
Qed.

(** Awaited on its own, the coroutine [resolve_file] is [resolve_file]. *)
Lemma resolve_file_alone (src_name extension generated_suffix : string) (st : State) :
  run_alone (resolve_file_coroutine w src_name extension generated_suffix st)
  = resolve_file w src_name extension generated_suffix st.
Proof.
  unfold resolve_file_coroutine, resolve_file, try_except_coroutine, try_except.
  unfold mbind at 1 3. unfold Co_bind, M_bind at 1.
  rewrite run_alone_bind, run_alone_atomic.
  destruct (locate w src_name extension generated_suffix st) as [[full_path|e] s1];
    [|reflexivity].
  rewrite run_alone_try.
  unfold mbind, Co_bind, M_bind. rewrite run_alone_bind, run_alone_atomic.
  destruct (ArtifactResolver_init w full_path s1) as [[r|e] s2].
  - rewrite read_alone. destruct (read w r s2) as [[data|e] s3]; [reflexivity|].
    apply run_alone_atomic.
  - apply run_alone_atomic.
Qed.

End AloneResolver.

(** ** The event loop and [gather] *)

Section Loop.

Context {A : Type}.

Lemma step_task_length (i : nat) (tasks : list (Task A)) (st : State)
    (done : list (nat * Result A)) :
  length (step_task i tasks st done).1.1 = length tasks.
Proof.
  unfold step_task. destruct (tasks !! i) as [[resume|r]|]; try reflexivity.
  destruct (resume st); simpl; apply length_insert.
Qed.

Lemma step_task_completions (i : nat) (tasks : list (Task A)) (st : State)
    (done : list (nat * Result A)) :
  logged_completions tasks done ->
  logged_completions (step_task i tasks st done).1.1 (step_task i tasks st done).2.
Proof.
  intros Hinv. unfold step_task.
  destruct (tasks !! i) as [[resume|r]|] eqn:Hi; try exact Hinv.
  assert (Hlt : (i < length tasks)%nat) by (eapply lookup_lt_Some; exact Hi).
  assert (Hfresh : forall r, (i, r) ∉ done).
  { intros r Hr. apply Hinv in Hr. congruence. }
  destruct (resume st) as [r st' | st' resume']; simpl; intros j rj.
  - destruct (decide (j = i)) as [->|Hne].
    + rewrite list_lookup_insert_eq by exact Hlt. rewrite elem_of_app, list_elem_of_singleton.
      split.
      * intros H. inversion H. now right.
      * intros [H|H]; [now apply Hfresh in H | now inversion H].
    + rewrite list_lookup_insert_ne by auto. rewrite elem_of_app, list_elem_of_singleton.
      rewrite (Hinv j rj). split; [now left|].
      intros [H|H]; [exact H | inversion H; congruence].
  - destruct (decide (j = i)) as [->|Hne].
    + rewrite list_lookup_insert_eq by exact Hlt. split; [discriminate|].
      intros H. now apply Hfresh in H.
    + rewrite list_lookup_insert_ne by auto. apply Hinv.
Qed.

Lemma event_loop_invariant (schedule : list nat) (tasks tasks' : list (Task A))
    (st st' : State) (done done' : list (nat * Result A)) :
  event_loop schedule tasks st done = (tasks', st', done') ->
  logged_completions tasks done ->
  length tasks' = length tasks /\ logged_completions tasks' done'.
Proof.
  revert tasks st done. induction schedule as [|i schedule IH]; intros tasks st done.
  - simpl. intros H. inversion H. now subst.
  - simpl. intros H Hinv.
    pose proof (step_task_length i tasks st done) as Hlen.
    pose proof (step_task_completions i tasks st done Hinv) as Hinv'.
    destruct (step_task i tasks st done) as [[tasks1 st1] done1]. simpl in *.
    destruct (IH _ _ _ H Hinv') as [Hl Hi]. split; [congruence | exact Hi].
Qed.

Lemma logged_completions_start (cs : list (Co A)) :
  logged_completions (List.map Pending cs) [].
Proof.
  intros i r. split.
  - intros H. apply list_lookup_fmap_Some in H as (c & H1 & H2).
    first [discriminate H1 | discriminate H2].
  - intros H. inversion H.
Qed.

(** Once a task has failed, the first exception is there. *)
Lemma first_exception_some (done : list (nat * Result A)) (i : nat) (e : exn) :
  (i, Raise e) ∈ done ->
  exists (e' : exn) (j : nat), first_exception done = Some e' /\ (j, Raise e') ∈ done.
Proof.
  induction done as [|[k [a|e0]] done IH]; intros H.
  - inversion H.
  - apply elem_of_cons in H as [H|H]; [discriminate|].
    destruct (IH H) as (e' & j & Hf & Hin). exists e', j. simpl.
    split; [exact Hf | now apply list_elem_of_further].
  - exists e0, k. split; [reflexivity | apply list_elem_of_here].
Qed.

Lemma values_of_some (tasks : list (Task A)) (l : list A) :
  values_of tasks = Some l -> tasks = List.map (fun a => Completed (Return a)) l.
Proof.
  revert l. induction tasks as [|[resume|[a|e]] tasks IH]; intros l H; simpl in H;
    try discriminate.
  - now inversion H.
  - destruct (values_of tasks) as [l'|]; [|discriminate].
    inversion H. subst. simpl. f_equal. now apply IH.
Qed.

End Loop.

(** ** [load_artifacts] *)

(** C4. [load_artifacts] is all or nothing, under every schedule of the
    event loop. If any of the three resolutions has failed, the call fails:
    it raises the exception of the resolution that failed first and returns
    no mapping. If the call returns a mapping, every resolution
    has returned, and the keys of the mapping are exactly the three
    extensions, each bound to the bytes its resolution returned. *)
Theorem load_artifacts_all_or_nothing (w : World) (name : string) (schedule : list nat)
    (st st' : State) (tasks : list (Task bytes)) (done : list (nat * Result bytes)) :
  event_loop schedule (List.map Pending (resolvers w name)) st [] = (tasks, st', done) ->
  (forall (i : nat) (e : exn),
      tasks !! i = Some (Completed (Raise e)) ->
      exists (e' : exn) (j : nat),
        load_artifacts w name schedule st = Some (Raise e')
        /\ tasks !! j = Some (Completed (Raise e'))
        /\ first_exception done = Some e')
  /\ (forall m : gmap string bytes,
        load_artifacts w name schedule st = Some (Return m) ->
        dom m = {[EXT_ONNX; EXT_CALIB_YAML; EXT_ENF]}
        /\ exists b1 b2 b3 : bytes,
             tasks = [Completed (Return b1); Completed (Return b2); Completed (Return b3)]
             /\ m !! EXT_ONNX = Some b1
             /\ m !! EXT_CALIB_YAML = Some b2
             /\ m !! EXT_ENF = Some b3).
Proof.
  intros Hloop. unfold load_artifacts, gather. rewrite Hloop. unfold gather_result.
  destruct (event_loop_invariant _ _ _ _ _ _ _ Hloop (logged_completions_start _))
    as [Hlen Hinv].
  split.
  - intros i e Hi. apply Hinv in Hi.
    destruct (first_exception_some done i e Hi) as (e' & j & Hf & Hj).
    rewrite Hf. exists e', j. split; [reflexivity|]. split; [now apply Hinv | reflexivity].
  - intros m. destruct (first_exception done); [discriminate|].
    destruct (values_of tasks) as [l|] eqn:Hv; [|discriminate].
    intros H. inversion H; subst. clear H.
    apply values_of_some in Hv. subst tasks.
    rewrite !length_map in Hlen. simpl in Hlen.
    destruct l as [|b1 [|b2 [|b3 [|]]]]; try discriminate.
    unfold dict_of. simpl. split.
    + rewrite !dom_insert_L, dom_empty_L. set_solver.
    + exists b1, b2, b3. split; [reflexivity|].
      repeat split; unfold EXT_ONNX, EXT_CALIB_YAML, EXT_ENF; now simplify_map_eq.
Qed.

Lemma load_artifacts_all_or_nothing_witness :
  (forall (i : nat) (e : exn),
      (event_loop [0; 1; 2]%nat (List.map Pending (resolvers Sample.tagged "m"))
         Sample.cold_wrong_size []).1.1 !! i
      = Some (Completed (Raise e)) ->
      exists (e' : exn) (j : nat),
        load_artifacts Sample.tagged "m" [0; 1; 2]%nat Sample.cold_wrong_size
        = Some (Raise e')
        /\ (event_loop [0; 1; 2]%nat (List.map Pending (resolvers Sample.tagged "m"))
              Sample.cold_wrong_size []).1.1 !! j
           = Some (Completed (Raise e'))
        /\ first_exception
             (event_loop [0; 1; 2]%nat (List.map Pending (resolvers Sample.tagged "m"))
                Sample.cold_wrong_size []).2
           = Some e')
  /\ (forall m : gmap string bytes,
        load_artifacts Sample.tagged "m" [0; 1; 2]%nat Sample.cold_wrong_size
        = Some (Return m) ->
        dom m = {[EXT_ONNX; EXT_CALIB_YAML; EXT_ENF]}
        /\ exists b1 b2 b3 : bytes,
             (event_loop [0; 1; 2]%nat (List.map Pending (resolvers Sample.tagged "m"))
                Sample.cold_wrong_size []).1.1
             = [Completed (Return b1); Completed (Return b2); Completed (Return b3)]
             /\ m !! EXT_ONNX = Some b1
             /\ m !! EXT_CALIB_YAML = Some b2
             /\ m !! EXT_ENF = Some b3).
Proof.
  apply (load_artifacts_all_or_nothing Sample.tagged "m" [0; 1; 2]%nat
           Sample.cold_wrong_size
           (event_loop [0; 1; 2]%nat (List.map Pending (resolvers Sample.tagged "m"))
              Sample.cold_wrong_size []).1.2
           (event_loop [0; 1; 2]%nat (List.map Pending (resolvers Sample.tagged "m"))
              Sample.cold_wrong_size []).1.1
           (event_loop [0; 1; 2]%nat (List.map Pending (resolvers Sample.tagged "m"))
              Sample.cold_wrong_size []).2).
  destruct (event_loop [0; 1; 2]%nat (List.map Pending (resolvers Sample.tagged "m"))
              Sample.cold_wrong_size []) as [[tasks st'] done].
  reflexivity.
Defined.

(** The first steps of the three tasks, in the order of creation: the first
    resolution is awaiting the remote when the second fails in its search
    for a descriptor, and the call raises the [RuntimeError] of the second.
    Had the first resolution been run to its end before the others, the
    call would have raised the [ArtifactNotFound] of the first. *)
Example load_artifacts_first_failure :
  load_artifacts Sample.tagged "m" [0; 1; 2]%nat Sample.cold_wrong_size
  = Some (Raise RuntimeError)
  /\ load_artifacts Sample.tagged "m" [0; 0; 0; 0; 0; 0; 0; 1; 2]%nat Sample.cold_wrong_size
     = Some (Raise (ArtifactNotFound "m:/pkg/furiosa/models/data/m/m.onnx.onnx")).
Proof. split; vm_compute; reflexivity. Qed.

(** With every file in the cache, and each task resumed until it ends, the
    call returns the three entries; stopped earlier, it has no result. *)
Example load_artifacts_succeeds :
  load_artifacts Sample.tagged "m" [0; 1; 2; 2; 1; 0; 0; 1; 2]%nat Sample.all_cached
  = Some (Return (<[EXT_ENF := Sample.payload]>
                    (<[EXT_CALIB_YAML := Sample.stale]>
                       (<[EXT_ONNX := Sample.payload]> ∅))))
  /\ load_artifacts Sample.tagged "m" [0; 1; 2; 2; 1; 0]%nat Sample.all_cached = None.
Proof. split; vm_compute; reflexivity. Qed.

Lemma parse_dvc_file_splits_hash_witness :
  exists (c1 c2 : ascii) (rest : string) (st' : State),
    "ab12cd34" = String c1 (String c2 rest)
    /\ parse_dvc_file Sample.tagged Sample.onnx Sample.cold
       = (Return (String c1 (String c2 ""), rest, 3), st')
    /\ String.length (String c1 (String c2 "")) = 2%nat
    /\ String c1 (String c2 "") +:+ rest = "ab12cd34"
    /\ fs st' = fs Sample.cold.
Proof.
  apply (parse_dvc_file_splits_hash Sample.tagged Sample.onnx Sample.cold [Byte.x00]).
  - vm_compute. reflexivity.
  - reflexivity.
  - simpl. lia.
Defined.
